(** * normegil/docker: temporary containers with a readiness gate

    A shallow embedding of the package [docker] (entry point [New]) and the
    properties of its port selection, parameter translation and two-phase
    readiness gate.

    Conventions of the embedding.
    - A Go [error] value is an [option error]; [None] is [nil].
    - A Go [int] and a [time.Duration] (nanoseconds) are a [Z].
    - A Go [map] is a [gmap]; [range] over a map visits its entries in an
      order chosen by the runtime, which is an oracle of the environment.
    - Everything the package calls outside of itself (the engine client, the
      clock, the network, the uuid source, the two helper libraries
      [interval] and [connectionutils]) is a field of [Env].  Every such call
      is recorded, with its result, in the [trace] of the [World], and moves
      the clock forward by the time the call took.
    - The two polling loops have no iteration bound in the source; they are
      embedded with fuel, and shown to return with a fuel that depends only
      on the wait budget ([waitStarted_returns], [waitReachable_returns]).
    - The [Logger] only prints: with the default logger [Printf] is empty,
      and no result depends on it.  The calls to [l.Printf] are left out. *)

From stdpp Require Import gmap strings list fin_maps pretty.
From Stdlib Require Import ZArith Lia Ascii.

Local Open Scope Z_scope.
Local Open Scope string_scope.
Local Open Scope list_scope.

Set Warnings "-clear-no-such-hyp".

(** ** Errors *)

(** [github.com/pkg/errors] and [fmt.Errorf] values, kept structured.
    [NotStartedErr id d] is
    [fmt.Errorf("Container not started: %s {WaitingTime: %+v}", id, d)] and
    [UnreachableErr hp d] is
    [fmt.Errorf("Could not reach %s {WaitingTime: %+v}", hp, d)]. *)
Inductive error : Type :=
| io_EOF
| External (msg : string)
| ErrNew (msg : string)
| Wrap (cause : error) (msg : string)
| NotStartedErr (containerID : string) (maxWait : Z)
| UnreachableErr (hostport : string) (maxWait : Z).

(** ** Constants *)

Definition dockerAddress : string := "127.0.0.1".
Definition Millisecond : Z := 1000000.
Definition Second : Z := 1000 * Millisecond.
Definition maxWaitTime : Z := 5 * Second.
Definition stepWaitTime : Z := 10 * Millisecond.

(** ** Data *)

Record PortBinding : Type := {
  Protocol : string;
  Internal : Z;
  ExternalInterval : string
}.

#[global] Instance PortBinding_eq_dec : EqDecision PortBinding.
Proof. solve_decision. Defined.

#[global] Program Instance PortBinding_countable : Countable PortBinding :=
  inj_countable'
    (fun b => (Protocol b, Internal b, ExternalInterval b))
    (fun t => {| Protocol := t.1.1; Internal := t.1.2; ExternalInterval := t.2 |})
    _.
Next Obligation. by intros []. Qed.

Module Options.
Record t : Type := {
  Name : string;
  Image : string;
  Ports : list PortBinding;
  EnvironmentVariables : gmap string string
}.
End Options.

(** [net.IP]: the nil address, or the four octets of an IPv4 address. *)
Inductive IP : Type :=
| nilIP
| IPv4 (a b c d : Z).

Module ContainerInfo.
Record t : Type := {
  Identifier : string;
  Address : IP;
  Ports : gmap PortBinding Z
}.
End ContainerInfo.

(** [interval.IntervalInteger], an inclusive range. *)
Record IntervalInteger : Type := { Min : Z; Max : Z }.

(** [net.TCPAddr], as returned by [connectionutils.SelectPortExcluding]. *)
Record TCPAddr : Type := { tcp_IP : IP; tcp_Port : Z }.

(** [nat.PortBinding] of [docker/go-connections]. *)
Record nat_PortBinding : Type := { HostIP : string; HostPort : string }.

(** [container.Config] and [container.HostConfig], the fields [New] sets. *)
Record container_Config : Type := {
  cfg_Image : string;
  cfg_ExposedPorts : gset string;
  cfg_Env : list string
}.

Record container_HostConfig : Type := {
  PortBindings : gmap string (list nat_PortBinding)
}.

(** [types.ImageSummary], the field [pullImage] reads. *)
Record ImageSummary : Type := { RepoTags : list string }.

(** [container.ContainerCreateCreatedBody]. *)
Record CreatedBody : Type := { ID : string; Warnings : list string }.

(** ** The world: a clock and the record of the calls made so far *)

Inductive Event : Type :=
| EvNewEnvClient (r : option error)
| EvImageList (r : error + list ImageSummary)
| EvImagePull (ref : string) (r : option error)
| EvDecode (r : option error)
| EvNewRandom (r : error + string)
| EvSelectPort (address : IP) (possiblePorts : IntervalInteger)
               (excluded : list Z) (selected : TCPAddr)
| EvContainerCreate (config : container_Config)
                    (hostConfig : container_HostConfig)
                    (containerName : string) (r : error + CreatedBody)
| EvContainerStart (containerID : string) (r : option error)
| EvContainerInspect (containerID : string) (r : error + bool)
| EvDial (network hostport : string) (r : option error)
| EvClose (r : option error)
| EvSleep (d : Z)
| EvContainerRemove (containerID : string) (force : bool) (r : option error).

Record World : Type := { now : Z; trace : list Event }.

(** The collaborators.  Each oracle sees the world at the time of the call,
    so its answer may depend on the clock and on everything that happened
    before.  [imagePull] answers with the results of the successive
    [Decode] calls on the event stream; past the end of that list [Decode]
    answers [io.EOF]. *)
Record Env : Type := {
  newEnvClient : World -> option error;
  imageList : World -> error + list ImageSummary;
  imagePull : World -> string -> error + list (option error);
  newRandom : World -> error + string;
  parseIntervalInteger : string -> error + IntervalInteger;
  selectPortExcluding : World -> IP -> IntervalInteger -> list Z -> TCPAddr;
  containerCreate : World -> container_Config -> container_HostConfig ->
                    string -> error + CreatedBody;
  containerStart : World -> string -> option error;
  containerInspect : World -> string -> error + bool;
  containerRemove : World -> string -> bool -> option error;
  dial : World -> string -> string -> option error;
  close : World -> option error;
  rangePorts : World -> gmap PortBinding Z -> list (PortBinding * Z);
  rangeEnvironmentVariables :
    World -> gmap string string -> list (string * string);
  latency : World -> Event -> Z
}.

(** What is assumed of an environment: a call takes no negative time, and
    [range] visits every entry of a map once. *)
Record env_wf (E : Env) : Prop := {
  latency_nonneg : forall w ev, 0 <= latency E w ev;
  rangePorts_perm : forall w m, rangePorts E w m ≡ₚ map_to_list m;
  rangeEnvironmentVariables_perm :
    forall w m, rangeEnvironmentVariables E w m ≡ₚ map_to_list m
}.

(** How a call of the embedding ends. *)
Inductive run (A : Type) : Type :=
| Done (a : A)
| Panic
| OutOfFuel.
Arguments Done {A} a.
Arguments Panic {A}.
Arguments OutOfFuel {A}.

(** ** Text helpers *)

(** [strconv.Itoa]. *)
Definition Itoa (n : Z) : string := pretty n.

Definition digit_of (c : ascii) : option Z :=
  let n := Z.of_N (N_of_ascii c) in
  if decide (48 <= n <= 57) then Some (n - 48) else None.

Fixpoint parse_digits (s : string) (acc : Z) : option Z :=
  match s with
  | EmptyString => Some acc
  | String c rest =>
      match digit_of c with
      | Some d => parse_digits rest (10 * acc + d)
      | None => None
      end
  end.

Definition parse_uint (s : string) : option Z :=
  match s with
  | EmptyString => None
  | _ => parse_digits s 0
  end.

Fixpoint split_on (sep : ascii) (s : string) (cur : string) : list string :=
  match s with
  | EmptyString => [cur]
  | String c rest =>
      if decide (c = sep) then cur :: split_on sep rest ""
      else split_on sep rest (cur +:+ String c "")
  end.

(** [net.ParseIP] on the dotted decimal form of an IPv4 address, the only
    form this package passes to it; any other text gives the nil address. *)
Definition ParseIP (s : string) : IP :=
  match parse_uint <$> split_on "."%char s "" with
  | [Some a; Some b; Some c; Some d] =>
      if decide (a <= 255 /\ b <= 255 /\ c <= 255 /\ d <= 255)
      then IPv4 a b c d else nilIP
  | _ => nilIP
  end.

(** The key [nat.Port(strconv.Itoa(binding.Internal)+"/"+binding.Protocol)]. *)
Definition nat_Port (binding : PortBinding) : string :=
  Itoa (Internal binding) +:+ "/" +:+ Protocol binding.

(** ** The program *)

Section Program.

Context (E : Env).

(** A call to a collaborator: it is recorded and takes some time. *)
Definition perform (ev : Event) (w : World) : World :=
  {| now := now w + latency E w ev; trace := trace w ++ [ev] |}.

(** [time.Sleep(d)] returns no earlier than [d] after it was called. *)
Definition Sleep (d : Z) (w : World) : World :=
  {| now := now w + d + latency E w (EvSleep d);
     trace := trace w ++ [EvSleep d] |}.

(** The decoding loop of [pullImage]: [for { stream.Decode(&event) ... }]. *)
Fixpoint decodeEvents (image : string) (stream : list (option error))
    (w : World) : option error * World :=
  match stream with
  | [] => (None, perform (EvDecode (Some io_EOF)) w)
  | None :: rest => decodeEvents image rest (perform (EvDecode None) w)
  | Some io_EOF :: _ => (None, perform (EvDecode (Some io_EOF)) w)
  | Some err :: _ =>
      (Some (Wrap err ("Pulling " +:+ image +:+ " (Error decoding json stream)")),
       perform (EvDecode (Some err)) w)
  end.

Definition pullImage (options : Options.t) (w : World) : option error * World :=
  let listed := imageList E w in
  let w := perform (EvImageList listed) w in
  match listed with
  | inl err => (Some (Wrap err "Listing images"), w)
  | inr images =>
      if existsb (fun image =>
                    existsb (fun tag => bool_decide (tag = Options.Image options))
                            (RepoTags image)) images
      then (None, w)
      else
        let pulled := imagePull E w (Options.Image options) in
        match pulled with
        | inl err =>
            (Some (Wrap err ("Pulling image: " +:+ Options.Image options)),
             perform (EvImagePull (Options.Image options) (Some err)) w)
        | inr events =>
            decodeEvents (Options.Image options) events
              (perform (EvImagePull (Options.Image options) None) w)
        end
  end.

Definition checkOptions (options : Options.t) : option error :=
  match Options.Ports options with
  | [] => Some (ErrNew "At least one port should be open for external communication")
  | _ => None
  end.

Definition toExposedPorts (ports : list PortBinding) : gset string :=
  fold_left (fun exposed binding => {[ nat_Port binding ]} ∪ exposed) ports ∅.

(** The loop of [selectPorts].  [used] is the slice of that name: it is
    passed to every selection and the loop body never appends to it. *)
Fixpoint selectPorts_range (address : IP) (used : list Z)
    (toReturn : gmap PortBinding Z) (possiblePorts : list PortBinding)
    (w : World) : (error + gmap PortBinding Z) * World :=
  match possiblePorts with
  | [] => (inr toReturn, w)
  | binding :: rest =>
      match parseIntervalInteger E (ExternalInterval binding) with
      | inl err =>
          (inl (Wrap err ("Parsing " +:+ ExternalInterval binding)), w)
      | inr interval =>
          let selected := selectPortExcluding E w address interval used in
          let w := perform (EvSelectPort address interval used selected) w in
          selectPorts_range address used
            (<[binding := tcp_Port selected]> toReturn) rest w
      end
  end.

Definition selectPorts (address : IP) (possiblePorts : list PortBinding)
    (w : World) : (error + gmap PortBinding Z) * World :=
  selectPorts_range address [] ∅ possiblePorts w.

(** The body of the [range] loop of [toDockerPortBindings], over the
    entries in the order they are visited. *)
Definition toDockerPortBindings_range
    (entries : list (PortBinding * Z))
    (toReturn : gmap string (list nat_PortBinding))
    : gmap string (list nat_PortBinding) :=
  fold_left
    (fun toReturn entry =>
       <[nat_Port entry.1 :=
           [ {| HostIP := ""; HostPort := Itoa entry.2 |} ]]> toReturn)
    entries toReturn.

(** [address] is not used: the line setting [HostIP] is commented out. *)
Definition toDockerPortBindings (address : IP) (ports : gmap PortBinding Z)
    (w : World) : gmap string (list nat_PortBinding) :=
  toDockerPortBindings_range (rangePorts E w ports) ∅.

(** [waitStarted], from the first test of the loop condition on;
    [done] is [time.Now().Add(maxWait)]. *)
Fixpoint waitStarted_loop (fuel : nat) (containerID : string)
    (maxWait done : Z) (w : World) : run (option error) * World :=
  match fuel with
  | O => (OutOfFuel, w)
  | S fuel =>
      if decide (now w < done) then
        let c := containerInspect E w containerID in
        let w := perform (EvContainerInspect containerID c) w in
        match c with
        | inl _ => (Done (Some (NotStartedErr containerID maxWait)), w)
        | inr true => (Done None, w)
        | inr false =>
            waitStarted_loop fuel containerID maxWait done
              (Sleep stepWaitTime w)
        end
      else (Done (Some (NotStartedErr containerID maxWait)), w)
  end.

Definition waitStarted (fuel : nat) (containerID : string) (maxWait : Z)
    (w : World) : run (option error) * World :=
  waitStarted_loop fuel containerID maxWait (now w + maxWait) w.

Fixpoint waitReachable_loop (fuel : nat) (hostport : string)
    (maxWait done : Z) (w : World) : run (option error) * World :=
  match fuel with
  | O => (OutOfFuel, w)
  | S fuel =>
      if decide (now w < done) then
        let err := dial E w "tcp" hostport in
        let w := perform (EvDial "tcp" hostport err) w in
        match err with
        | None =>
            let closed := close E w in
            (Done closed, perform (EvClose closed) w)
        | Some _ =>
            waitReachable_loop fuel hostport maxWait done
              (Sleep stepWaitTime w)
        end
      else (Done (Some (UnreachableErr hostport maxWait)), w)
  end.

Definition waitReachable (fuel : nat) (hostport : string) (maxWait : Z)
    (w : World) : run (option error) * World :=
  waitReachable_loop fuel hostport maxWait (now w + maxWait) w.

Definition waitContainer (fuel : nat) (containerID hostport : string)
    (maxWait : Z) (w : World) : run (option error) * World :=
  match waitStarted fuel containerID maxWait w with
  | (Done (Some err), w) => (Done (Some err), w)
  | (Done None, w) =>
      match waitReachable fuel hostport maxWait w with
      | (Done (Some err), w) => (Done (Some err), w)
      | (Done None, w) => (Done None, w)
      | other => other
      end
  | other => other
  end.

(** The closure [New] returns: it captures [containerName] and
    [containerID] (and the client and the logger). *)
Record Teardown : Type := {
  td_containerName : string;
  td_containerID : string
}.

(** Calling the closure. *)
Definition teardown (td : Teardown) (w : World) : option error * World :=
  let removed := containerRemove E w (td_containerID td) true in
  let w := perform (EvContainerRemove (td_containerID td) true removed) w in
  match removed with
  | Some err =>
      (Some (Wrap err ("MongoDB: Could not remove " +:+ td_containerName td)), w)
  | None => (None, w)
  end.

(** The three results of [New]: the container info, the closure, the error. *)
Definition Results : Type :=
  (option ContainerInfo.t * option Teardown * option error)%type.

Definition failure (err : error) : run Results := Done (None, None, Some err).

Definition New (fuel : nat) (options : Options.t) (w : World)
    : run Results * World :=
  let client := newEnvClient E w in
  let w := perform (EvNewEnvClient client) w in
  match client with
  | Some err =>
      (failure (Wrap err "MongoDB: Could not create docker client"), w)
  | None =>
  match pullImage options w with
  | (Some err, w) =>
      (failure (Wrap err ("Downloading image: " +:+ Options.Image options)), w)
  | (None, w) =>
  let ip := ParseIP dockerAddress in
  match checkOptions options with
  | Some _ =>
      (failure (ErrNew "Docker instance cannot be used without a external port"), w)
  | None =>
  let suffix := newRandom E w in
  let w := perform (EvNewRandom suffix) w in
  match suffix with
  | inl err =>
      (failure (Wrap err ("generating docker suffix for " +:+ Options.Name options)), w)
  | inr suffix =>
  let containerName := Options.Name options +:+ "-" +:+ suffix in
  match selectPorts ip (Options.Ports options) w with
  | (inl err, w) => (failure (Wrap err "Selecting ports"), w)
  | (inr dockerPorts, w) =>
  let portBindings := toDockerPortBindings ip dockerPorts w in
  let varDefinitions :=
    (fun kv => kv.1 +:+ "=" +:+ kv.2)
      <$> rangeEnvironmentVariables E w (Options.EnvironmentVariables options) in
  let config :=
    {| cfg_Image := Options.Image options;
       cfg_ExposedPorts := toExposedPorts (Options.Ports options);
       cfg_Env := varDefinitions |} in
  let hostConfig := {| PortBindings := portBindings |} in
  let containerInfo := containerCreate E w config hostConfig containerName in
  let w := perform (EvContainerCreate config hostConfig containerName containerInfo) w in
  match containerInfo with
  | inl err =>
      (failure (Wrap err ("Could not create container (" +:+ containerName +:+ ")")), w)
  | inr containerInfo =>
  let containerID := ID containerInfo in
  let started := containerStart E w containerID in
  let w := perform (EvContainerStart containerID started) w in
  match started with
  | Some err =>
      (failure (Wrap err ("Could not start container (" +:+ containerName +:+ ")")), w)
  | None =>
  match Options.Ports options with
  | [] => (Panic, w)
  | first :: _ =>
  let reachablePorts := default 0 (dockerPorts !! first) in
  match waitContainer fuel containerID
          (dockerAddress +:+ ":" +:+ Itoa reachablePorts) maxWaitTime w with
  | (Done (Some err), w) =>
      (failure (Wrap err "Container not started withing time limit"), w)
  | (Done None, w) =>
      (Done (Some {| ContainerInfo.Identifier := containerID;
                     ContainerInfo.Address := ip;
                     ContainerInfo.Ports := dockerPorts |},
             Some {| td_containerName := containerName;
                     td_containerID := containerID |},
             None), w)
  | (Panic, w) => (Panic, w)
  | (OutOfFuel, w) => (OutOfFuel, w)
  end end end end end end end end end.

End Program.

(** ** A concrete environment

    Used to run the embedding on examples.  The engine has the image
    ["busybox:latest"], creates the container ["c0ffee"] and starts it; the
    inspection, dial and close results are given by the caller; every call
    returns at once and [Sleep] wakes up on time. *)

Module Sample.

(** Modelled from the spec: the interval parser, missing from the sources
    ([github.com/normegil/interval]), on the form [min-max] of section 6
    ([30000-30100]), an inclusive range. *)
Definition ParseIntervalInteger (text : string) : error + IntervalInteger :=
  match parse_uint <$> split_on "-"%char text "" with
  | [Some lo; Some hi] => inr {| Min := lo; Max := hi |}
  | _ => inl (External ("not an interval: " +:+ text))
  end.

Fixpoint first_free (n : nat) (port : Z) (excluded : list Z) : option Z :=
  match n with
  | O => None
  | S n =>
      if bool_decide (port ∈ excluded) then first_free n (port + 1) excluded
      else Some port
  end.

(** Modelled from the spec: the port-excluding selector, missing from the
    sources ([github.com/normegil/connectionutils]), with the first-fit
    policy section 4.1 allows, on a host where every port is free: the
    smallest port of the range that is not excluded (0 when there is
    none). *)
Definition SelectPortExcluding (address : IP) (possiblePorts : IntervalInteger)
    (excluded : list Z) : TCPAddr :=
  {| tcp_IP := address;
     tcp_Port :=
       default 0 (first_free (Z.to_nat (Max possiblePorts - Min possiblePorts + 1))
                             (Min possiblePorts) excluded) |}.

Definition env
    (select : World -> IP -> IntervalInteger -> list Z -> TCPAddr)
    (inspect : World -> error + bool)
    (dialed : World -> option error) (closed : option error) : Env :=
  {| newEnvClient := fun _ => None;
     imageList := fun _ => inr [ {| RepoTags := ["busybox:latest"] |} ];
     imagePull := fun _ _ => inr [None; None];
     newRandom := fun _ => inr "6ba7b810-9dad-11d1-80b4-00c04fd430c8";
     parseIntervalInteger := ParseIntervalInteger;
     selectPortExcluding := select;
     containerCreate := fun _ _ _ _ => inr {| ID := "c0ffee"; Warnings := [] |};
     containerStart := fun _ _ => None;
     containerInspect := fun w _ => inspect w;
     containerRemove := fun _ _ _ => None;
     dial := fun w _ _ => dialed w;
     close := fun _ => closed;
     rangePorts := fun _ m => map_to_list m;
     rangeEnvironmentVariables := fun _ m => map_to_list m;
     latency := fun _ _ => 0 |}.

(** The engine answers, the process runs and the service listens. *)
Definition ready : Env :=
  env (fun _ => SelectPortExcluding) (fun _ => inr true) (fun _ => None) None.

(** A host on which the free port found depends on what happened before:
    the n-th call made of the environment finds the n-th port of the range
    (the exclusion list is honoured by skipping to the next free one). *)
Definition shifting (w : World) (address : IP) (possiblePorts : IntervalInteger)
    (excluded : list Z) : TCPAddr :=
  SelectPortExcluding address
    {| Min := Min possiblePorts + Z.of_nat (length (trace w));
       Max := Max possiblePorts |} excluded.

Definition start : World := {| now := 0; trace := [] |}.

Definition tcp80 : PortBinding :=
  {| Protocol := "tcp"; Internal := 80; ExternalInterval := "40000-40010" |}.
Definition udp53 : PortBinding :=
  {| Protocol := "udp"; Internal := 53; ExternalInterval := "40000-40010" |}.
Definition tcp81 : PortBinding :=
  {| Protocol := "tcp"; Internal := 81; ExternalInterval := "40020-40030" |}.

Definition options (ports : list PortBinding) : Options.t :=
  {| Options.Name := "svc"; Options.Image := "busybox:latest";
     Options.Ports := ports; Options.EnvironmentVariables := ∅ |}.

End Sample.

(** ** Predicates on events and runs, further environments, and the
    statements of the specification that are refuted below *)

Definition is_selection (ev : Event) : Prop :=
  match ev with EvSelectPort _ _ _ _ => True | _ => False end.

(** The selector answers within the range it is given, whenever that range
    holds a port that is not excluded. *)
Definition selects_within (E : Env) : Prop :=
  forall w address itv excluded,
    (exists port, Min itv <= port <= Max itv /\ port ∉ excluded) ->
    Min itv <= tcp_Port (selectPortExcluding E w address itv excluded) <= Max itv.

(** What a run of [waitStarted] does, and what it returns: inspections that
    report a process not running, each followed by a sleep of one step,
    ended by the running process, by an inspection that fails, or by the
    end of the budget. *)
Inductive started_run (containerID : string) (maxWait : Z)
    : list Event -> option error -> Prop :=
| started_timeout :
    started_run containerID maxWait [] (Some (NotStartedErr containerID maxWait))
| started_inspect_error err :
    started_run containerID maxWait
      [EvContainerInspect containerID (inl err)]
      (Some (NotStartedErr containerID maxWait))
| started_running :
    started_run containerID maxWait [EvContainerInspect containerID (inr true)] None
| started_retry evs r :
    started_run containerID maxWait evs r ->
    started_run containerID maxWait
      (EvContainerInspect containerID (inr false) :: EvSleep stepWaitTime :: evs) r.

(** The same for [waitReachable]: failed dials, each followed by a sleep of
    one step, ended by a dial that succeeds and the closing of its
    connection, or by the end of the budget. *)
Inductive reachable_run (hostport : string) (maxWait : Z)
    : list Event -> option error -> Prop :=
| reachable_timeout :
    reachable_run hostport maxWait [] (Some (UnreachableErr hostport maxWait))
| reachable_connected closed :
    reachable_run hostport maxWait
      [EvDial "tcp" hostport None; EvClose closed] closed
| reachable_retry err evs r :
    reachable_run hostport maxWait evs r ->
    reachable_run hostport maxWait
      (EvDial "tcp" hostport (Some err) :: EvSleep stepWaitTime :: evs) r.

Definition is_dial (ev : Event) : Prop :=
  match ev with EvDial _ _ _ => True | _ => False end.



Definition reports_running (ev : Event) : bool :=
  match ev with EvContainerInspect _ (inr true) => true | _ => false end.

(** A container whose process never runs. *)
Definition never_running : Env :=
  Sample.env (fun _ => Sample.SelectPortExcluding)
    (fun _ => inr false) (fun _ => None) None.



(** The last entry of [entries] whose key is [key]. *)
Fixpoint last_bound (key : string) (entries : list (PortBinding * Z))
    : option (PortBinding * Z) :=
  match entries with
  | [] => None
  | entry :: rest =>
      match last_bound key rest with
      | Some found => Some found
      | None => if decide (nat_Port entry.1 = key) then Some entry else None
      end
  end.

(** C4, as the specification states it: the host binding of every entry of
    the assignment carries the target address and the assigned port. *)
Definition bound_on_target_address : Prop :=
  forall E, env_wf E ->
  forall ports w binding port,
    ports !! binding = Some port ->
    toDockerPortBindings E (ParseIP dockerAddress) ports w !! nat_Port binding =
    Some [ {| HostIP := dockerAddress; HostPort := Itoa port |} ].

(** The calls of image resolution. *)
Definition is_resolution (ev : Event) : Prop :=
  match ev with
  | EvImageList _ | EvImagePull _ _ | EvDecode _ => True
  | _ => False
  end.

(** The calls made to the container engine. *)
Definition is_engine_call (ev : Event) : Prop :=
  match ev with
  | EvImageList _ | EvImagePull _ _ | EvDecode _
  | EvContainerCreate _ _ _ _ | EvContainerStart _ _
  | EvContainerInspect _ _ | EvContainerRemove _ _ _ => True
  | _ => False
  end.

(** C3, as the specification states it: with an empty port list [New]
    makes no call to the engine. *)
Definition empty_ports_no_engine_call : Prop :=
  forall E, env_wf E ->
  forall fuel options w r w' evs,
    Options.Ports options = [] ->
    New E fuel options w = (r, w') ->
    trace w' = trace w ++ evs ->
    Forall (fun ev => ~ is_engine_call ev) evs.

(** ** Further definitions for the properties of the second part *)

(** A binding whose range cannot be read. *)
Definition tcp82_malformed : PortBinding :=
  {| Protocol := "tcp"; Internal := 82; ExternalInterval := "forty thousand" |}.

Fixpoint count_events (f : Event -> bool) (evs : list Event) : nat :=
  match evs with
  | [] => O
  | ev :: evs => if f ev then S (count_events f evs) else count_events f evs
  end.

Definition inspects (ev : Event) : bool :=
  match ev with EvContainerInspect _ _ => true | _ => false end.

Definition dials (ev : Event) : bool :=
  match ev with EvDial _ _ _ => true | _ => false end.

Definition is_pull (ev : Event) : Prop :=
  match ev with EvImagePull _ _ => True | _ => False end.

(** A service that never accepts the connection. *)
Definition never_listening : Env :=
  Sample.env (fun _ => Sample.SelectPortExcluding)
    (fun _ => inr true) (fun _ => Some (External "connection refused")) None.

(** What [New] does before it selects ports. *)
Definition is_preparation (ev : Event) : Prop :=
  match ev with
  | EvNewEnvClient _ | EvImageList _ | EvImagePull _ _ | EvDecode _
  | EvNewRandom _ => True
  | _ => False
  end.

Definition is_creation (ev : Event) : Prop :=
  match ev with EvContainerCreate _ _ _ _ => True | _ => False end.

Definition is_start (ev : Event) : Prop :=
  match ev with EvContainerStart _ _ => True | _ => False end.

Definition is_removal (ev : Event) : Prop :=
  match ev with EvContainerRemove _ _ _ => True | _ => False end.

(** The calls of the readiness gate. *)
Definition is_gate (ev : Event) : Prop :=
  match ev with
  | EvContainerInspect _ _ | EvSleep _ | EvDial _ _ _ | EvClose _ => True
  | _ => False
  end.

(** The errors [New] returns before it asks for a container. *)
Inductive prelaunch_error (options : Options.t) : error -> Prop :=
| no_client cause :
    prelaunch_error options (Wrap cause "MongoDB: Could not create docker client")
| no_image cause :
    prelaunch_error options
      (Wrap cause ("Downloading image: " +:+ Options.Image options))
| no_port :
    prelaunch_error options
      (ErrNew "Docker instance cannot be used without a external port")
| no_suffix cause :
    prelaunch_error options
      (Wrap cause ("generating docker suffix for " +:+ Options.Name options))
| no_selection cause :
    prelaunch_error options (Wrap cause "Selecting ports").

(** A run of [waitContainer]: the first phase, and the second when the
    first succeeds. *)
Definition gate_run (containerID hostport : string) (maxWait : Z)
    (evs : list Event) (r : option error) : Prop :=
  exists evs1 evs2 r1,
    evs = evs1 ++ evs2 /\
    started_run containerID maxWait evs1 r1 /\
    match r1 with
    | Some err => r = Some err /\ evs2 = []
    | None => reachable_run hostport maxWait evs2 r
    end.

(** What [New] passes to [ContainerCreate] and to [waitContainer], given the
    suffix drawn, the assignment [dockerPorts] and the world in which the
    container is created. *)
Definition launch_containerName (options : Options.t) (suffix : string) : string :=
  Options.Name options +:+ "-" +:+ suffix.

Definition launch_config (E : Env) (options : Options.t) (w : World)
    : container_Config :=
  {| cfg_Image := Options.Image options;
     cfg_ExposedPorts := toExposedPorts (Options.Ports options);
     cfg_Env :=
       (fun kv => kv.1 +:+ "=" +:+ kv.2)
         <$> rangeEnvironmentVariables E w (Options.EnvironmentVariables options) |}.

Definition launch_hostConfig (E : Env) (dockerPorts : gmap PortBinding Z)
    (w : World) : container_HostConfig :=
  {| PortBindings := toDockerPortBindings E (ParseIP dockerAddress) dockerPorts w |}.

Definition launch_hostport (dockerPorts : gmap PortBinding Z)
    (first : PortBinding) : string :=
  dockerAddress +:+ ":" +:+ Itoa (default 0 (dockerPorts !! first)).

(** How a call of [New] that asked for a container goes on: the calls of
    the launch, the calls of the gate, and the results. *)
Inductive launched (E : Env) (options : Options.t) (suffix : string)
    (dockerPorts : gmap PortBinding Z) (first : PortBinding) (w : World)
    : list Event -> list Event -> Results -> Prop :=
| launch_create_failed err :
    launched E options suffix dockerPorts first w
      [EvContainerCreate (launch_config E options w)
         (launch_hostConfig E dockerPorts w)
         (launch_containerName options suffix) (inl err)]
      []
      (None, None,
       Some (Wrap err ("Could not create container ("
                         +:+ launch_containerName options suffix +:+ ")")))
| launch_start_failed body err :
    launched E options suffix dockerPorts first w
      [EvContainerCreate (launch_config E options w)
         (launch_hostConfig E dockerPorts w)
         (launch_containerName options suffix) (inr body);
       EvContainerStart (ID body) (Some err)]
      []
      (None, None,
       Some (Wrap err ("Could not start container ("
                         +:+ launch_containerName options suffix +:+ ")")))
| launch_gate_failed body evs_gate err :
    gate_run (ID body) (launch_hostport dockerPorts first) maxWaitTime
      evs_gate (Some err) ->
    launched E options suffix dockerPorts first w
      [EvContainerCreate (launch_config E options w)
         (launch_hostConfig E dockerPorts w)
         (launch_containerName options suffix) (inr body);
       EvContainerStart (ID body) None]
      evs_gate
      (None, None, Some (Wrap err "Container not started withing time limit"))
| launch_ready body evs_gate :
    gate_run (ID body) (launch_hostport dockerPorts first) maxWaitTime
      evs_gate None ->
    launched E options suffix dockerPorts first w
      [EvContainerCreate (launch_config E options w)
         (launch_hostConfig E dockerPorts w)
         (launch_containerName options suffix) (inr body);
       EvContainerStart (ID body) None]
      evs_gate
      (Some {| ContainerInfo.Identifier := ID body;
               ContainerInfo.Address := ParseIP dockerAddress;
               ContainerInfo.Ports := dockerPorts |},
       Some {| td_containerName := launch_containerName options suffix;
               td_containerID := ID body |},
       None).

(** Options with two variables for the container. *)
Definition options_with_environment : Options.t :=
  {| Options.Name := "svc"; Options.Image := "busybox:latest";
     Options.Ports := [Sample.tcp80];
     Options.EnvironmentVariables := {[ "MODE" := "test"; "LEVEL" := "3" ]} |}.

(** No character of the text is a slash. *)
Fixpoint slash_free (s : string) : bool :=
  match s with
  | EmptyString => true
  | String c rest => bool_decide (c <> "/"%char) && slash_free rest
  end.

(** * Properties *)

Lemma Sample_env_wf select inspect dialed closed :
  env_wf (Sample.env select inspect dialed closed).
Proof. split; intros; simpl; [lia | reflexivity | reflexivity]. Qed.

(** ** Traces *)

Section Traces.

Context (E : Env).

Lemma trace_perform ev w : trace (perform E ev w) = trace w ++ [ev].
Proof. reflexivity. Qed.

Lemma trace_Sleep d w : trace (Sleep E d w) = trace w ++ [EvSleep d].
Proof. reflexivity. Qed.

Lemma now_perform ev w : now (perform E ev w) = now w + latency E w ev.
Proof. reflexivity. Qed.

Lemma now_Sleep d w : now (Sleep E d w) = now w + d + latency E w (EvSleep d).
Proof. reflexivity. Qed.

End Traces.

(** ** Port selection *)

Section SelectPorts.

Context (E : Env).

Lemma selectPorts_range_app address used toReturn l1 l2 w :
  selectPorts_range E address used toReturn (l1 ++ l2) w =
  match selectPorts_range E address used toReturn l1 w with
  | (inr m, w1) => selectPorts_range E address used m l2 w1
  | (inl err, w1) => (inl err, w1)
  end.
Proof.
  revert toReturn w. induction l1 as [|b l1 IH]; intros toReturn w; simpl.
  - reflexivity.
  - destruct (parseIntervalInteger E (ExternalInterval b)); [reflexivity|].
    apply IH.
Qed.

(** One selection per element of the input, each of them made with the
    address and the exclusion list the loop was entered with. *)
Lemma selectPorts_range_trace address used toReturn l w r w' :
  selectPorts_range E address used toReturn l w = (r, w') ->
  exists evs,
    trace w' = trace w ++ evs /\
    Forall (fun ev => exists itv sel, ev = EvSelectPort address itv used sel) evs /\
    (forall m, r = inr m -> length evs = length l).
Proof.
  revert toReturn w. induction l as [|b l IH]; intros toReturn w; simpl.
  - intros [= <- <-]. exists []. rewrite app_nil_r. auto.
  - destruct (parseIntervalInteger E (ExternalInterval b)) as [err|itv].
    + intros [= <- <-]. exists []. rewrite app_nil_r.
      split; [reflexivity|]. split; [constructor|]. discriminate.
    + intros H. apply IH in H as (evs & Ht & Hall & Hlen).
      eexists (_ :: evs). rewrite Ht, trace_perform, <- app_assoc. simpl.
      split; [reflexivity|]. split.
      * constructor; eauto.
      * intros m Hm. simpl. f_equal. eauto.
Qed.

(** A binding that does not occur in the input keeps its entry. *)
Lemma selectPorts_range_lookup_notin address used toReturn l w m w' b :
  selectPorts_range E address used toReturn l w = (inr m, w') ->
  b ∉ l -> m !! b = toReturn !! b.
Proof.
  revert toReturn w. induction l as [|b' l IH]; intros toReturn w; simpl.
  - intros [= <- <-] _. reflexivity.
  - destruct (parseIntervalInteger E (ExternalInterval b')) as [err|itv];
      [discriminate|].
    intros H Hb. apply not_elem_of_cons in Hb as [Hne Hb].
    rewrite (IH _ _ H Hb). by apply lookup_insert_ne.
Qed.

Lemma selectPorts_range_dom address used toReturn l w m w' :
  selectPorts_range E address used toReturn l w = (inr m, w') ->
  dom m = dom toReturn ∪ list_to_set l.
Proof.
  revert toReturn w. induction l as [|b l IH]; intros toReturn w; simpl.
  - intros [= <- <-]. set_solver.
  - destruct (parseIntervalInteger E (ExternalInterval b)) as [err|itv];
      [discriminate|].
    intros H. rewrite (IH _ _ H), dom_insert_L. set_solver.
Qed.

(** Every entry written by the loop is a port the selector returned for
    the interval of its binding. *)
Lemma selectPorts_range_selected address used toReturn l w m w' b p :
  selectPorts_range E address used toReturn l w = (inr m, w') ->
  m !! b = Some p ->
  toReturn !! b = Some p \/
  exists itv w0,
    b ∈ l /\ parseIntervalInteger E (ExternalInterval b) = inr itv /\
    p = tcp_Port (selectPortExcluding E w0 address itv used).
Proof.
  revert toReturn w. induction l as [|b' l IH]; intros toReturn w; simpl.
  - intros [= <- <-] Hp. by left.
  - destruct (parseIntervalInteger E (ExternalInterval b')) as [err|itv] eqn:Hparse;
      [discriminate|].
    intros H Hp. destruct (IH _ _ H Hp) as [Hins|(itv' & w0 & Hin & Hpi & ->)].
    + destruct (decide (b' = b)) as [->|Hne].
      * rewrite lookup_insert_eq in Hins. injection Hins as <-.
        right. exists itv, w. split; [left|auto].
      * rewrite lookup_insert_ne in Hins by done. by left.
    + right. exists itv', w0. split; [by right|auto].
Qed.

End SelectPorts.

Lemma size_list_to_set_le (l : list PortBinding) :
  (size (list_to_set l : gset PortBinding) <= length l)%nat.
Proof.
  induction l as [|b l IH].
  - rewrite list_to_set_nil, size_empty. reflexivity.
  - rewrite list_to_set_cons, size_union_alt, size_singleton. simpl.
    pose proof (subseteq_size (list_to_set l ∖ {[b]}) (list_to_set l : gset PortBinding)
                  ltac:(set_solver)).
    lia.
Qed.

Section SelectPortsResults.

Context (E : Env).

(** The exclusion list of every selection [selectPorts] makes is empty. *)
Lemma selectPorts_excludes_nothing address l w :
  exists evs,
    trace (selectPorts E address l w).2 = trace w ++ evs /\
    Forall (fun ev => exists itv sel, ev = EvSelectPort address itv [] sel) evs.
Proof.
  unfold selectPorts.
  destruct (selectPorts_range E address [] ∅ l w) as [r w'] eqn:H.
  apply selectPorts_range_trace in H as (evs & ? & ? & _). eauto.
Qed.

Lemma selectPorts_port_in_range address l w m w' b itv :
  selects_within E ->
  selectPorts E address l w = (inr m, w') ->
  b ∈ l ->
  parseIntervalInteger E (ExternalInterval b) = inr itv ->
  Min itv <= Max itv ->
  exists p, m !! b = Some p /\ Min itv <= p <= Max itv.
Proof.
  intros Hsel H Hb Hitv Hne. unfold selectPorts in H.
  assert (is_Some (m !! b)) as [p Hp].
  { apply elem_of_dom. rewrite (selectPorts_range_dom _ _ _ _ _ _ _ _ H).
    set_solver. }
  destruct (selectPorts_range_selected _ _ _ _ _ _ _ _ _ _ H Hp)
    as [Hemp|(itv' & w0 & _ & Hparse & ->)].
  - by rewrite lookup_empty in Hemp.
  - rewrite Hitv in Hparse. injection Hparse as <-.
    eexists. split; [done|]. apply Hsel.
    exists (Min itv). split; [lia|]. apply not_elem_of_nil.
Qed.

(** X1. With a selector that answers within the range it is given, a
    binding of the input whose range is not empty gets a port of that
    range. *)
Theorem selectPorts_within_range address l w m w' b itv :
  selects_within E ->
  selectPorts E address l w = (inr m, w') ->
  b ∈ l ->
  parseIntervalInteger E (ExternalInterval b) = inr itv ->
  Min itv <= Max itv ->
  exists p, m !! b = Some p /\ Min itv <= p <= Max itv.
Proof. apply selectPorts_port_in_range. Qed.

(** X2. Hence, on two ranges that are not empty and do not meet, the ports
    of the two bindings differ, although no port is ever excluded. *)
Theorem selectPorts_distinct_on_disjoint address l w m w' b1 b2 itv1 itv2 :
  selects_within E ->
  selectPorts E address l w = (inr m, w') ->
  b1 ∈ l -> b2 ∈ l ->
  parseIntervalInteger E (ExternalInterval b1) = inr itv1 ->
  parseIntervalInteger E (ExternalInterval b2) = inr itv2 ->
  Min itv1 <= Max itv1 -> Min itv2 <= Max itv2 ->
  Max itv1 < Min itv2 \/ Max itv2 < Min itv1 ->
  m !! b1 <> m !! b2.
Proof.
  intros Hsel H Hb1 Hb2 Hp1 Hp2 Hne1 Hne2 Hdisj.
  destruct (selectPorts_port_in_range _ _ _ _ _ _ _ Hsel H Hb1 Hp1 Hne1) as (p1 & -> & ?).
  destruct (selectPorts_port_in_range _ _ _ _ _ _ _ Hsel H Hb2 Hp2 Hne2) as (p2 & -> & ?).
  intros [= ->]. lia.
Qed.

End SelectPortsResults.

(** The sample selector does leave out the ports it is told to exclude. *)
Example sample_selector_excludes :
  tcp_Port (Sample.SelectPortExcluding (IPv4 127 0 0 1)
              {| Min := 40000; Max := 40010 |} [40000]) = 40001.
Proof. reflexivity. Qed.

(** C1. [selectPorts] never excludes a port chosen earlier in the call: the
    slice [used] stays empty.  On the two disjoint ranges 40000-40010 and
    40020-40030 the selection for the second binding is made with an empty
    exclusion list although 40000 was chosen for the first; and on two
    bindings with the same range, a first-fit selector that honours its
    exclusion list gives both bindings the port 40000. *)
Theorem selectPorts_never_excludes_earlier_choice :
  let ip := IPv4 127 0 0 1 in
  trace (selectPorts Sample.ready ip [Sample.tcp80; Sample.tcp81] Sample.start).2 =
    [ EvSelectPort ip {| Min := 40000; Max := 40010 |} []
        {| tcp_IP := ip; tcp_Port := 40000 |};
      EvSelectPort ip {| Min := 40020; Max := 40030 |} []
        {| tcp_IP := ip; tcp_Port := 40020 |} ] /\
  exists m,
    (selectPorts Sample.ready ip [Sample.tcp80; Sample.udp53] Sample.start).1 = inr m /\
    Sample.tcp80 <> Sample.udp53 /\
    m !! Sample.tcp80 = Some 40000 /\ m !! Sample.udp53 = Some 40000.
Proof.
  split; [vm_compute; reflexivity|].
  eexists. split; [reflexivity|]. split; [discriminate|].
  split; vm_compute; reflexivity.
Qed.

(** C9. When the input holds the same binding twice, [selectPorts] makes a
    selection for each element of the input, the single entry of the binding
    holds the port selected for its last occurrence, and the assignment has
    fewer entries than the input has bindings. *)
Theorem selectPorts_equal_bindings_share_entry
    (E : Env) address pre binding mid post w m w' :
  selectPorts E address (pre ++ binding :: mid ++ binding :: post) w = (inr m, w') ->
  binding ∉ post ->
  (exists evs,
     trace w' = trace w ++ evs /\ Forall is_selection evs /\
     length evs = length (pre ++ binding :: mid ++ binding :: post)) /\
  (exists itv,
     parseIntervalInteger E (ExternalInterval binding) = inr itv /\
     m !! binding =
       Some (tcp_Port (selectPortExcluding E
               (selectPorts E address (pre ++ binding :: mid) w).2
               address itv []))) /\
  (size m < length (pre ++ binding :: mid ++ binding :: post))%nat.
Proof.
  intros H Hpost. split; [|split].
  - unfold selectPorts in H.
    destruct (selectPorts_range_trace _ _ _ _ _ _ _ _ H) as (evs & Ht & Hall & Hlen).
    exists evs. split; [done|]. split; [|by eapply Hlen].
    eapply Forall_impl; [exact Hall|]. by intros ev (? & ? & ->).
  - unfold selectPorts in *.
    replace (pre ++ binding :: mid ++ binding :: post)
      with ((pre ++ binding :: mid) ++ binding :: post) in H
      by (rewrite <- app_assoc; reflexivity).
    rewrite selectPorts_range_app in H.
    destruct (selectPorts_range E address [] ∅ (pre ++ binding :: mid) w)
      as [[err|m1] w1]; [discriminate|].
    simpl in *.
    destruct (parseIntervalInteger E (ExternalInterval binding)) as [err|itv];
      [discriminate|].
    exists itv. split; [done|].
    rewrite (selectPorts_range_lookup_notin _ _ _ _ _ _ _ _ _ H Hpost).
    apply lookup_insert_eq.
  - unfold selectPorts in H.
    rewrite <- size_dom, (selectPorts_range_dom _ _ _ _ _ _ _ _ H), dom_empty_L.
    replace (∅ ∪ list_to_set (pre ++ binding :: mid ++ binding :: post) : gset _)
      with (list_to_set (pre ++ mid ++ binding :: post) : gset PortBinding).
    + pose proof (size_list_to_set_le (pre ++ mid ++ binding :: post)) as Hle.
      rewrite !length_app in *. simpl in *. rewrite !length_app in *. simpl in *. lia.
    + apply set_eq. intros x.
      rewrite elem_of_union, !elem_of_list_to_set, !elem_of_app, !elem_of_cons,
        !elem_of_app, !elem_of_cons. set_solver.
Qed.

Lemma selectPorts_equal_bindings_share_entry_witness :
  let E := Sample.env Sample.shifting (fun _ => inr true) (fun _ => None) None in
  let ip := IPv4 127 0 0 1 in
  exists m w',
    selectPorts E ip [Sample.tcp80; Sample.tcp80] Sample.start = (inr m, w') /\
    m !! Sample.tcp80 = Some 40001 /\
    (size m < 2)%nat.
Proof.
  intros E ip.
  destruct (selectPorts E ip [Sample.tcp80; Sample.tcp80] Sample.start)
    as [[err|m] w'] eqn:H; [vm_compute in H; discriminate|].
  exists m, w'. split; [reflexivity|].
  destruct (selectPorts_equal_bindings_share_entry E ip [] Sample.tcp80 [] []
              Sample.start m w' H) as (_ & (itv & Hitv & Hm) & Hsize).
  - apply not_elem_of_nil.
  - split; [|exact Hsize].
    rewrite Hm. vm_compute in Hitv. injection Hitv as <-. vm_compute. reflexivity.
Defined.

(** ** The readiness gate *)

Lemma started_run_no_dial containerID maxWait evs r :
  started_run containerID maxWait evs r -> Forall (fun ev => ~ is_dial ev) evs.
Proof. induction 1; repeat constructor; auto. Qed.

Lemma started_run_result containerID maxWait evs r :
  started_run containerID maxWait evs r ->
  (r = None /\ EvContainerInspect containerID (inr true) ∈ evs) \/
  r = Some (NotStartedErr containerID maxWait).
Proof.
  induction 1 as [| | |evs r _ [[-> Hin]| ->]]; auto.
  - left. split; [done|]. left.
  - left. split; [done|]. by do 2 right.
Qed.

Lemma reachable_run_dials hostport maxWait evs r :
  reachable_run hostport maxWait evs r ->
  Forall (fun ev => is_dial ev -> exists res, ev = EvDial "tcp" hostport res) evs.
Proof.
  induction 1; repeat constructor; simpl; try tauto; eauto.
Qed.

Section Readiness.

Context (E : Env).

Lemma waitStarted_loop_run fuel containerID maxWait done w r w' :
  waitStarted_loop E fuel containerID maxWait done w = (Done r, w') ->
  exists evs,
    trace w' = trace w ++ evs /\
    started_run containerID maxWait evs r /\
    (is_Some r ->
       done <= now w' \/
       exists err, last evs = Some (EvContainerInspect containerID (inl err))).
Proof.
  revert w. induction fuel as [|fuel IH]; intros w; simpl; [discriminate|].
  destruct (decide (now w < done)) as [Hlt|Hge].
  - destruct (containerInspect E w containerID) as [err|[|]] eqn:Hc.
    + intros [= <- <-]. eexists [_]. rewrite trace_perform.
      split; [reflexivity|]. split; [constructor|]. intros _. right. eauto.
    + intros [= <- <-]. eexists [_]. rewrite trace_perform.
      split; [reflexivity|]. split; [constructor|]. by intros [? [=]].
    + intros H. apply IH in H as (evs & Ht & Hrun & Hend).
      exists (EvContainerInspect containerID (inr false) :: EvSleep stepWaitTime :: evs).
      rewrite Ht, trace_Sleep, trace_perform, <- !app_assoc.
      split; [reflexivity|]. split; [by constructor|].
      intros Hr. destruct (Hend Hr) as [?|[err Hlast]]; [by left|].
      right. exists err. destruct evs; [discriminate|]. exact Hlast.
  - intros [= <- <-]. exists []. rewrite app_nil_r.
    split; [reflexivity|]. split; [constructor|]. intros _. left. lia.
Qed.

Lemma waitReachable_loop_run fuel hostport maxWait done w r w' :
  waitReachable_loop E fuel hostport maxWait done w = (Done r, w') ->
  exists evs,
    trace w' = trace w ++ evs /\ reachable_run hostport maxWait evs r.
Proof.
  revert w. induction fuel as [|fuel IH]; intros w; simpl; [discriminate|].
  destruct (decide (now w < done)) as [Hlt|Hge].
  - destruct (dial E w "tcp" hostport) as [err|] eqn:Hd.
    + intros H. apply IH in H as (evs & Ht & Hrun).
      exists (EvDial "tcp" hostport (Some err) :: EvSleep stepWaitTime :: evs).
      rewrite Ht, trace_Sleep, trace_perform, <- !app_assoc.
      split; [reflexivity|]. by constructor.
    + intros [= <- <-]. eexists [_; _]. rewrite !trace_perform, <- app_assoc.
      split; [reflexivity|]. constructor.
  - intros [= <- <-]. exists []. rewrite app_nil_r.
    split; [reflexivity|]. constructor.
Qed.

(** The loops return once the budget fits in the fuel: a turn of the loop
    that does not return moves the clock by one step at least. *)
Lemma waitStarted_loop_returns fuel containerID maxWait done w :
  env_wf E ->
  done - now w <= Z.of_nat fuel * stepWaitTime ->
  exists r w', waitStarted_loop E (S fuel) containerID maxWait done w = (Done r, w').
Proof.
  intros Hwf. revert w. induction fuel as [|fuel IH]; intros w Hbudget.
  - simpl. destruct (decide (now w < done)); [lia|]. eauto.
  - change (waitStarted_loop E (S (S fuel)) containerID maxWait done w)
      with (if decide (now w < done) then
              let c := containerInspect E w containerID in
              let w := perform E (EvContainerInspect containerID c) w in
              match c with
              | inl _ => (Done (Some (NotStartedErr containerID maxWait)), w)
              | inr true => (Done None, w)
              | inr false =>
                  waitStarted_loop E (S fuel) containerID maxWait done
                    (Sleep E stepWaitTime w)
              end
            else (Done (Some (NotStartedErr containerID maxWait)), w)).
    destruct (decide (now w < done)); [|eauto].
    cbv zeta. destruct (containerInspect E w containerID) as [err|[|]]; eauto.
    apply IH. rewrite now_Sleep, now_perform.
    pose proof (latency_nonneg E Hwf w (EvContainerInspect containerID (inr false))).
    pose proof (latency_nonneg E Hwf
                  (perform E (EvContainerInspect containerID (inr false)) w)
                  (EvSleep stepWaitTime)).
    lia.
Qed.

Lemma waitReachable_loop_returns fuel hostport maxWait done w :
  env_wf E ->
  done - now w <= Z.of_nat fuel * stepWaitTime ->
  exists r w', waitReachable_loop E (S fuel) hostport maxWait done w = (Done r, w').
Proof.
  intros Hwf. revert w. induction fuel as [|fuel IH]; intros w Hbudget.
  - simpl. destruct (decide (now w < done)); [lia|]. eauto.
  - change (waitReachable_loop E (S (S fuel)) hostport maxWait done w)
      with (if decide (now w < done) then
              let err := dial E w "tcp" hostport in
              let w := perform E (EvDial "tcp" hostport err) w in
              match err with
              | None =>
                  let closed := close E w in
                  (Done closed, perform E (EvClose closed) w)
              | Some _ =>
                  waitReachable_loop E (S fuel) hostport maxWait done
                    (Sleep E stepWaitTime w)
              end
            else (Done (Some (UnreachableErr hostport maxWait)), w)).
    destruct (decide (now w < done)); [|eauto].
    cbv zeta. destruct (dial E w "tcp" hostport) as [err|]; eauto.
    apply IH. rewrite now_Sleep, now_perform.
    pose proof (latency_nonneg E Hwf w (EvDial "tcp" hostport (Some err))).
    pose proof (latency_nonneg E Hwf
                  (perform E (EvDial "tcp" hostport (Some err)) w)
                  (EvSleep stepWaitTime)).
    lia.
Qed.

Lemma waitStarted_returns fuel containerID maxWait w :
  env_wf E ->
  maxWait <= Z.of_nat fuel * stepWaitTime ->
  exists r w', waitStarted E (S fuel) containerID maxWait w = (Done r, w').
Proof. intros. apply waitStarted_loop_returns; [done|lia]. Qed.

Lemma waitReachable_returns fuel hostport maxWait w :
  env_wf E ->
  maxWait <= Z.of_nat fuel * stepWaitTime ->
  exists r w', waitReachable E (S fuel) hostport maxWait w = (Done r, w').
Proof. intros. apply waitReachable_loop_returns; [done|lia]. Qed.

(** The two phases in sequence. *)
Lemma waitContainer_run fuel containerID hostport maxWait w r w' :
  waitContainer E fuel containerID hostport maxWait w = (Done r, w') ->
  exists evs1 evs2 r1,
    trace w' = trace w ++ evs1 ++ evs2 /\
    started_run containerID maxWait evs1 r1 /\
    match r1 with
    | Some err => r = Some err /\ evs2 = []
    | None => reachable_run hostport maxWait evs2 r
    end.
Proof.
  unfold waitContainer, waitStarted, waitReachable.
  destruct (waitStarted_loop E fuel containerID maxWait (now w + maxWait) w)
    as [[[err|]| |] w1] eqn:H1; try discriminate.
  - intros [= <- <-].
    apply waitStarted_loop_run in H1 as (evs1 & Ht & Hrun & _).
    exists evs1, [], (Some err). rewrite app_nil_r. auto.
  - apply waitStarted_loop_run in H1 as (evs1 & Ht1 & Hrun1 & _).
    destruct (waitReachable_loop E fuel hostport maxWait (now w1 + maxWait) w1)
      as [[[err|]| |] w2] eqn:H2; try discriminate.
    + intros [= <- <-].
      apply waitReachable_loop_run in H2 as (evs2 & Ht2 & Hrun2).
      exists evs1, evs2, None. rewrite Ht2, Ht1, <- app_assoc. auto.
    + intros [= <- <-].
      apply waitReachable_loop_run in H2 as (evs2 & Ht2 & Hrun2).
      exists evs1, evs2, None. rewrite Ht2, Ht1, <- app_assoc. auto.
Qed.

Lemma waitContainer_returns fuel containerID hostport maxWait w :
  env_wf E ->
  maxWait <= Z.of_nat fuel * stepWaitTime ->
  exists r w', waitContainer E (S fuel) containerID hostport maxWait w = (Done r, w').
Proof.
  intros Hwf Hfuel. unfold waitContainer.
  destruct (waitStarted_returns fuel containerID maxWait w Hwf Hfuel)
    as (r1 & w1 & ->).
  destruct r1 as [err|]; [eauto|].
  destruct (waitReachable_returns fuel hostport maxWait w1 Hwf Hfuel)
    as (r2 & w2 & ->).
  destruct r2; eauto.
Qed.

End Readiness.

Lemma budget_fits_500_steps : maxWaitTime <= Z.of_nat 500 * stepWaitTime.
Proof. vm_compute. discriminate. Qed.







(** C5. The readiness gate returns, and when no inspection of the call
    reported a running process it returns the not-started error and the
    call dialled nothing. *)
Theorem waitContainer_not_started_dials_nothing
    (E : Env) fuel containerID hostport maxWait w :
  env_wf E ->
  maxWait <= Z.of_nat fuel * stepWaitTime ->
  exists r w' evs,
    waitContainer E (S fuel) containerID hostport maxWait w = (Done r, w') /\
    trace w' = trace w ++ evs /\
    (EvContainerInspect containerID (inr true) ∉ evs ->
     r = Some (NotStartedErr containerID maxWait) /\
     Forall (fun ev => ~ is_dial ev) evs).
Proof.
  intros Hwf Hfuel.
  destruct (waitContainer_returns E fuel containerID hostport maxWait w Hwf Hfuel)
    as (r & w' & H).
  exists r, w'.
  destruct (waitContainer_run _ _ _ _ _ _ _ _ H) as (evs1 & evs2 & r1 & Ht & Hrun1 & Hr).
  exists (evs1 ++ evs2). split; [done|]. split; [done|].
  intros Hnever.
  destruct (started_run_result _ _ _ _ Hrun1) as [[-> Hin]| ->].
  - exfalso. apply Hnever, elem_of_app. by left.
  - destruct Hr as [-> ->]. split; [done|].
    rewrite app_nil_r. by eapply started_run_no_dial.
Qed.

Lemma reports_running_in containerID evs :
  EvContainerInspect containerID (inr true) ∈ evs ->
  existsb reports_running evs = true.
Proof.
  intros Hin. apply existsb_exists.
  exists (EvContainerInspect containerID (inr true)).
  split; [by apply list_elem_of_In|reflexivity].
Qed.

Lemma waitContainer_not_started_dials_nothing_witness :
  exists w',
    waitContainer never_running 501 "c0ffee" "127.0.0.1:40000" maxWaitTime
      Sample.start =
    (Done (Some (NotStartedErr "c0ffee" maxWaitTime)), w') /\
    Forall (fun ev => ~ is_dial ev) (trace w').
Proof.
  destruct (waitContainer_not_started_dials_nothing never_running 500 "c0ffee"
              "127.0.0.1:40000" maxWaitTime Sample.start
              (Sample_env_wf _ _ _ _) budget_fits_500_steps)
    as (r & w' & evs & H & Ht & Hnever).
  assert (EvContainerInspect "c0ffee" (inr true) ∉ evs) as Hnot.
  { intros Hin. apply reports_running_in in Hin.
    assert (evs = trace w') as -> by (rewrite Ht; reflexivity).
    replace w' with
      (waitContainer never_running 501 "c0ffee" "127.0.0.1:40000" maxWaitTime
         Sample.start).2 in Hin by (rewrite H; reflexivity).
    vm_compute in Hin. discriminate. }
  destruct (Hnever Hnot) as [-> Hall].
  exists w'. split; [exact H|]. rewrite Ht. exact Hall.
Defined.





(** ** Translation of the assignment for the engine *)

Lemma last_bound_Some key entries entry :
  last_bound key entries = Some entry ->
  entry ∈ entries /\ nat_Port entry.1 = key.
Proof.
  induction entries as [|e rest IH]; simpl; [discriminate|].
  destruct (last_bound key rest) as [found|].
  - intros [= ->]. destruct (IH eq_refl). split; [by right|done].
  - destruct (decide (nat_Port e.1 = key)); [|discriminate].
    intros [= ->]. split; [left|done].
Qed.

Lemma last_bound_None key entries entry :
  last_bound key entries = None -> entry ∈ entries -> nat_Port entry.1 <> key.
Proof.
  induction entries as [|e rest IH]; simpl; intros Hnone Hin.
  - by apply elem_of_nil in Hin.
  - destruct (last_bound key rest); [discriminate|].
    destruct (decide (nat_Port e.1 = key)); [discriminate|].
    apply elem_of_cons in Hin as [->|Hin]; auto.
Qed.

Lemma toDockerPortBindings_range_lookup entries toReturn key :
  toDockerPortBindings_range entries toReturn !! key =
  match last_bound key entries with
  | Some entry => Some [ {| HostIP := ""; HostPort := Itoa entry.2 |} ]
  | None => toReturn !! key
  end.
Proof.
  unfold toDockerPortBindings_range.
  revert toReturn. induction entries as [|e rest IH]; intros toReturn; simpl.
  - reflexivity.
  - rewrite IH. destruct (last_bound key rest); [reflexivity|].
    destruct (decide (nat_Port e.1 = key)) as [<-|Hne].
    + apply lookup_insert_eq.
    + by apply lookup_insert_ne.
Qed.

Lemma toExposedPorts_fold (ports : list PortBinding) (exposed : gset string) key :
  key ∈ fold_left (fun exposed binding => {[ nat_Port binding ]} ∪ exposed)
          ports exposed <->
  key ∈ exposed \/ exists binding, binding ∈ ports /\ key = nat_Port binding.
Proof.
  revert exposed. induction ports as [|b ports IH]; intros exposed; simpl.
  - split; [auto|]. intros [?|(? & Hin & _)]; [done|]. by apply elem_of_nil in Hin.
  - rewrite IH, elem_of_union, elem_of_singleton. split.
    + intros [[->|?]|(b' & Hin & ->)]; eauto.
      * right. exists b. split; [left|done].
      * right. exists b'. split; [by right|done].
    + intros [?|(b' & Hin & ->)]; auto.
      apply elem_of_cons in Hin as [->|Hin]; eauto.
Qed.

Example toDockerPortBindings_tcp80 :
  toDockerPortBindings Sample.ready (IPv4 127 0 0 1) {[ Sample.tcp80 := 40000 ]}
    Sample.start !! "80/tcp" =
  Some [ {| HostIP := ""; HostPort := "40000" |} ].
Proof. vm_compute. reflexivity. Qed.

(** C4 does not hold: the host binding carries no address at all. *)
Lemma not_bound_on_target_address : ~ bound_on_target_address.
Proof.
  intros H.
  specialize (H Sample.ready (Sample_env_wf _ _ _ _)
                {[ Sample.tcp80 := 40000 ]} Sample.start Sample.tcp80 40000
                (lookup_singleton_eq _ _)).
  vm_compute in H. discriminate.
Qed.

(** C4, amended. The exposed ports are exactly the internal port/protocol
    pairs of the request.  Every pair of the assignment is bound to one host
    binding, whose host address is empty and whose host port is the port
    assigned to a binding with that pair: to the binding itself when no
    other binding of the assignment has the same pair. *)
Theorem ports_exposed_and_bound_without_address
    (E : Env) address (possiblePorts : list PortBinding)
    (ports : gmap PortBinding Z) w :
  env_wf E ->
  (forall key,
     key ∈ toExposedPorts possiblePorts <->
     exists binding, binding ∈ possiblePorts /\ key = nat_Port binding) /\
  (forall binding port,
     ports !! binding = Some port ->
     exists binding' port',
       ports !! binding' = Some port' /\
       nat_Port binding' = nat_Port binding /\
       toDockerPortBindings E address ports w !! nat_Port binding =
         Some [ {| HostIP := ""; HostPort := Itoa port' |} ] /\
       ((forall other p,
           ports !! other = Some p -> nat_Port other = nat_Port binding ->
           other = binding) ->
        port' = port)).
Proof.
  intros Hwf. split.
  - intros key. unfold toExposedPorts. rewrite toExposedPorts_fold.
    split; [intros [Hin|?]; [set_solver|done]|auto].
  - intros binding port Hp.
    assert (forall b p, (b, p) ∈ rangePorts E w ports <-> ports !! b = Some p) as Hrange.
    { intros b p. rewrite (rangePorts_perm E Hwf w ports).
      apply elem_of_map_to_list. }
    unfold toDockerPortBindings. rewrite toDockerPortBindings_range_lookup.
    destruct (last_bound (nat_Port binding) (rangePorts E w ports))
      as [[binding' port']|] eqn:Hlast.
    + apply last_bound_Some in Hlast as [Hin Hkey]. simpl in Hkey.
      apply Hrange in Hin. exists binding', port'.
      split; [done|]. split; [done|]. split; [done|].
      intros Huniq. apply (Huniq _ _ Hin) in Hkey as ->. congruence.
    + exfalso. apply (last_bound_None _ _ (binding, port) Hlast); [|done].
      by apply Hrange.
Qed.

Lemma ports_exposed_and_bound_without_address_witness :
  "80/tcp" ∈ toExposedPorts [Sample.tcp80] /\
  exists port',
    toDockerPortBindings Sample.ready (IPv4 127 0 0 1)
      {[ Sample.tcp80 := 40000 ]} Sample.start !! "80/tcp" =
    Some [ {| HostIP := ""; HostPort := Itoa port' |} ].
Proof.
  destruct (ports_exposed_and_bound_without_address Sample.ready (IPv4 127 0 0 1)
              [Sample.tcp80] {[ Sample.tcp80 := 40000 ]} Sample.start
              (Sample_env_wf _ _ _ _)) as [Hexposed Hbound].
  split.
  - apply Hexposed. exists Sample.tcp80. split; [left|vm_compute; reflexivity].
  - destruct (Hbound Sample.tcp80 40000 (lookup_singleton_eq _ _))
      as (binding' & port' & _ & _ & Hb & _).
    exists port'. exact Hb.
Defined.

(** ** The entry point *)

Lemma started_run_no_selection containerID maxWait evs r :
  started_run containerID maxWait evs r -> Forall (fun ev => ~ is_selection ev) evs.
Proof. induction 1; repeat constructor; auto. Qed.

Lemma reachable_run_no_selection hostport maxWait evs r :
  reachable_run hostport maxWait evs r -> Forall (fun ev => ~ is_selection ev) evs.
Proof. induction 1; repeat constructor; auto. Qed.

Section EntryPoint.

Context (E : Env).

Lemma decodeEvents_trace image stream w r w' :
  decodeEvents E image stream w = (r, w') ->
  exists evs, trace w' = trace w ++ evs /\ Forall is_resolution evs.
Proof.
  revert w. induction stream as [|[err|] stream IH]; intros w; simpl.
  - intros [= <- <-]. eexists [_]. split; [reflexivity|]. by repeat constructor.
  - destruct err; intros [= <- <-]; eexists [_];
      (split; [reflexivity|by repeat constructor]).
  - intros H. apply IH in H as (evs & Ht & Hall).
    eexists (_ :: evs). rewrite Ht, trace_perform, <- app_assoc.
    split; [reflexivity|]. by constructor.
Qed.

Lemma pullImage_trace options w r w' :
  pullImage E options w = (r, w') ->
  exists listed evs,
    trace w' = trace w ++ EvImageList listed :: evs /\ Forall is_resolution evs.
Proof.
  unfold pullImage.
  destruct (imageList E w) as [err|images].
  - intros [= <- <-]. eexists _, []. split; [reflexivity|constructor].
  - destruct (existsb _ images).
    + intros [= <- <-]. eexists _, []. split; [reflexivity|constructor].
    + destruct (imagePull E _ (Options.Image options)) as [err|events].
      * intros [= <- <-]. eexists _, [_]. rewrite !trace_perform, <- app_assoc.
        split; [reflexivity|]. by repeat constructor.
      * intros H. apply decodeEvents_trace in H as (evs & Ht & Hall).
        eexists _, (_ :: evs). rewrite Ht, !trace_perform, <- !app_assoc.
        split; [reflexivity|]. by constructor.
Qed.

Lemma checkOptions_None options :
  checkOptions options = None ->
  exists first rest, Options.Ports options = first :: rest.
Proof. unfold checkOptions. destruct (Options.Ports options); [discriminate|eauto]. Qed.

End EntryPoint.

Example New_without_ports :
  New Sample.ready 501 (Sample.options []) Sample.start =
  (failure (ErrNew "Docker instance cannot be used without a external port"),
   {| now := 0;
      trace := [EvNewEnvClient None;
                EvImageList (inr [ {| RepoTags := ["busybox:latest"] |} ])] |}).
Proof. vm_compute. reflexivity. Qed.

(** C3 does not hold: the images are listed before the options are
    checked. *)
Lemma empty_ports_lists_images : ~ empty_ports_no_engine_call.
Proof.
  intros H.
  specialize (H Sample.ready (Sample_env_wf _ _ _ _) 501%nat
                (Sample.options []) Sample.start _ _
                [EvNewEnvClient None;
                 EvImageList (inr [ {| RepoTags := ["busybox:latest"] |} ])]
                eq_refl New_without_ports eq_refl).
  apply Forall_cons in H as [_ H]. apply Forall_cons in H as [H _].
  by apply H.
Qed.

(** C3, amended. With an empty port list (a nil slice has length 0 as
    well) [New] fails: it creates the client and resolves the image first,
    and when both succeed it returns the error about the missing external
    port; past the image resolution it calls nothing, so no container is
    created, started, inspected or removed. *)
Theorem New_empty_ports_fails_after_image_resolution
    (E : Env) fuel options w :
  Options.Ports options = [] ->
  exists err w' client evs,
    New E fuel options w = (failure err, w') /\
    trace w' = trace w ++ EvNewEnvClient client :: evs /\
    Forall is_resolution evs /\
    err =
      match client with
      | Some cause => Wrap cause "MongoDB: Could not create docker client"
      | None =>
          match (pullImage E options (perform E (EvNewEnvClient None) w)).1 with
          | Some cause =>
              Wrap cause ("Downloading image: " +:+ Options.Image options)
          | None =>
              ErrNew "Docker instance cannot be used without a external port"
          end
      end.
Proof.
  intros Hports. unfold New, checkOptions. rewrite Hports.
  destruct (newEnvClient E w) as [cause|].
  - eexists _, _, (Some cause), []. repeat split; constructor.
  - destruct (pullImage E options (perform E (EvNewEnvClient None) w))
      as [[cause|] w1] eqn:Hpull;
      destruct (pullImage_trace _ _ _ _ _ Hpull) as (listed & evs & Ht & Hall);
      eexists _, _, None, (EvImageList listed :: evs);
      rewrite Ht, trace_perform, <- app_assoc;
      (split; [reflexivity|]); (split; [reflexivity|]);
      (split; [by constructor|reflexivity]).
Qed.

Lemma New_empty_ports_fails_after_image_resolution_witness :
  exists w',
    New Sample.ready 501 (Sample.options []) Sample.start =
    (failure (ErrNew "Docker instance cannot be used without a external port"), w').
Proof.
  destruct (New_empty_ports_fails_after_image_resolution Sample.ready 501
              (Sample.options []) Sample.start eq_refl)
    as (err & w' & client & evs & H & _).
  exists w'. rewrite H. rewrite New_without_ports in H.
  injection H as <- _. reflexivity.
Defined.

(** C6. [New] returns, and what it returns is either an error with no
    container info and no closure, or a container info and a closure with
    no error. *)
Theorem New_returns_handle_or_error (E : Env) fuel options w :
  env_wf E ->
  maxWaitTime <= Z.of_nat fuel * stepWaitTime ->
  exists info td err w',
    New E (S fuel) options w = (Done (info, td, err), w') /\
    ((is_Some err /\ info = None /\ td = None) \/
     (err = None /\ is_Some info /\ is_Some td)).
Proof.
  intros Hwf Hfuel. unfold New, failure.
  destruct (newEnvClient E w); [eauto 10|].
  destruct (pullImage E options _) as [[?|] w1]; [eauto 10|].
  destruct (checkOptions options) eqn:Hcheck; [eauto 10|].
  apply checkOptions_None in Hcheck as (first & rest & Hports).
  destruct (newRandom E w1) as [?|suffix]; [eauto 10|].
  destruct (selectPorts E _ _ _) as [[?|dockerPorts] w2]; [eauto 10|].
  destruct (containerCreate E w2 _ _ _) as [?|created]; [eauto 10|].
  destruct (containerStart E _ _); [eauto 10|].
  rewrite Hports.
  match goal with
  | |- context [waitContainer E (S fuel) ?id ?hp ?mw ?w0] =>
      destruct (waitContainer_returns E fuel id hp mw w0 Hwf Hfuel)
        as ([?|] & w3 & ->)
  end; eauto 10.
Qed.

Lemma New_returns_handle_or_error_witness :
  exists info td w',
    New Sample.ready 501 (Sample.options [Sample.tcp80]) Sample.start =
    (Done (Some info, Some td, None), w').
Proof.
  destruct (New_returns_handle_or_error Sample.ready 500
              (Sample.options [Sample.tcp80]) Sample.start
              (Sample_env_wf _ _ _ _) budget_fits_500_steps)
    as (info & td & err & w' & H & Hshape).
  assert (err = None) as ->.
  { assert (((New Sample.ready 501 (Sample.options [Sample.tcp80]) Sample.start).1
             = Done (info, td, err))) as Hr by (rewrite H; reflexivity).
    vm_compute in Hr. by injection Hr as _ _ <-. }
  destruct Hshape as [([? [=]] & _)|(_ & [i ->] & [t ->])].
  exists i, t, w'. exact H.
Defined.

(** A call of [New] that returns, cut in four: what comes before the port
    selection, the selections, the launch and the first phase of the gate,
    and the probe of the second phase. *)
Lemma New_selection_and_dials (E : Env) fuel options w res w' :
  New E fuel options w = (Done res, w') ->
  exists evs_before evs_sel evs_launch evs_probe,
    trace w' = trace w ++ evs_before ++ evs_sel ++ evs_launch ++ evs_probe /\
    Forall (fun ev => ~ is_dial ev /\ ~ is_selection ev) evs_before /\
    Forall (fun ev => exists itv sel,
              ev = EvSelectPort (ParseIP dockerAddress) itv [] sel) evs_sel /\
    Forall (fun ev => ~ is_dial ev /\ ~ is_selection ev) evs_launch /\
    ((evs_probe = [] /\ exists err, res = (None, None, Some err)) \/
     exists first rest m w0 w1 p r,
       Options.Ports options = first :: rest /\
       trace w0 = trace w ++ evs_before /\
       selectPorts E (ParseIP dockerAddress) (Options.Ports options) w0 = (inr m, w1) /\
       m !! first = Some p /\
       reachable_run (dockerAddress +:+ ":" +:+ Itoa p) maxWaitTime evs_probe r /\
       forall info, res.1.1 = Some info ->
                    ContainerInfo.Ports info = m /\
                    ContainerInfo.Address info = ParseIP dockerAddress).
Proof.
  unfold New, failure.
  destruct (newEnvClient E w) as [cause|] eqn:Hclient.
  { intros [= <- <-]. exists [EvNewEnvClient (Some cause)], [], [], [].
    rewrite trace_perform. split; [reflexivity|].
    split; [repeat constructor; simpl; tauto|].
    split; [constructor|]. split; [constructor|]. left. eauto. }
  destruct (pullImage E options _) as [pulled w1] eqn:Hpull.
  apply pullImage_trace in Hpull as (listed & evs_pull & Ht1 & Hres).
  rewrite trace_perform, <- app_assoc in Ht1. simpl in Ht1.
  assert (Forall (fun ev => ~ is_dial ev /\ ~ is_selection ev)
            (EvNewEnvClient None :: EvImageList listed :: evs_pull)) as Hbefore.
  { constructor; [simpl; tauto|]. constructor; [simpl; tauto|].
    eapply Forall_impl; [exact Hres|]. intros []; simpl; tauto. }
  destruct pulled as [cause|].
  { intros [= <- <-].
    exists (EvNewEnvClient None :: EvImageList listed :: evs_pull), [], [], [].
    rewrite Ht1, !app_nil_r. split; [reflexivity|]. split; [exact Hbefore|].
    split; [constructor|]. split; [constructor|]. left. eauto. }
  destruct (checkOptions options) eqn:Hcheck.
  { intros [= <- <-].
    exists (EvNewEnvClient None :: EvImageList listed :: evs_pull), [], [], [].
    rewrite Ht1, !app_nil_r. split; [reflexivity|]. split; [exact Hbefore|].
    split; [constructor|]. split; [constructor|]. left. eauto. }
  apply checkOptions_None in Hcheck as (first & rest & Hports).
  set (evs_before :=
         (EvNewEnvClient None :: EvImageList listed :: evs_pull)
           ++ [EvNewRandom (newRandom E w1)]).
  assert (Forall (fun ev => ~ is_dial ev /\ ~ is_selection ev) evs_before)
    as Hbefore'.
  { apply Forall_app. split; [exact Hbefore|]. repeat constructor; simpl; tauto. }
  assert (trace (perform E (EvNewRandom (newRandom E w1)) w1)
          = trace w ++ evs_before) as Ht0.
  { rewrite trace_perform, Ht1. unfold evs_before. by rewrite <- app_assoc. }
  destruct (newRandom E w1) as [cause|suffix] eqn:Hrandom.
  { intros [= <- <-]. exists evs_before, [], [], [].
    rewrite Ht0, !app_nil_r. split; [reflexivity|]. split; [exact Hbefore'|].
    split; [constructor|]. split; [constructor|]. left. eauto. }
  destruct (selectPorts E (ParseIP dockerAddress) (Options.Ports options) _)
    as [selected w2] eqn:Hsel.
  pose proof Hsel as Hsel'. unfold selectPorts in Hsel'.
  apply selectPorts_range_trace in Hsel' as (evs_sel & Ht2 & Hsel_all & _).
  rewrite Ht0 in Ht2.
  destruct selected as [cause|m].
  { intros [= <- <-]. exists evs_before, evs_sel, [], [].
    rewrite Ht2, !app_nil_r, <- app_assoc. split; [reflexivity|].
    split; [exact Hbefore'|]. split; [exact Hsel_all|]. split; [constructor|].
    left. eauto. }
  assert (is_Some (m !! first)) as [p Hp].
  { apply elem_of_dom. unfold selectPorts in Hsel.
    rewrite (selectPorts_range_dom _ _ _ _ _ _ _ _ Hsel), Hports. set_solver. }
  destruct (containerCreate E w2 _ _ _) as [cause|created] eqn:Hcreate.
  { intros [= <- <-]. eexists evs_before, evs_sel, [_], [].
    rewrite trace_perform, Ht2, <- !app_assoc. split; [reflexivity|].
    split; [exact Hbefore'|]. split; [exact Hsel_all|].
    split; [repeat constructor; simpl; tauto|]. left. eauto. }
  destruct (containerStart E _ _) as [cause|] eqn:Hstart.
  { intros [= <- <-]. eexists evs_before, evs_sel, [_; _], [].
    rewrite !trace_perform, Ht2, <- !app_assoc. split; [reflexivity|].
    split; [exact Hbefore'|]. split; [exact Hsel_all|].
    split; [repeat constructor; simpl; tauto|]. left. eauto. }
  rewrite Hports, Hp. simpl.
  assert (forall containerID evs r,
            started_run containerID maxWaitTime evs r ->
            Forall (fun ev => ~ is_dial ev /\ ~ is_selection ev) evs) as Hgate.
  { intros ? ? ? Hrun. apply Forall_and. split.
    - by eapply started_run_no_dial.
    - by eapply started_run_no_selection. }
  destruct (waitContainer E fuel _ _ _ _) as [[r| |] w3] eqn:Hwait;
    try discriminate.
  apply waitContainer_run in Hwait as (evs1 & evs2 & r1 & Ht3 & Hrun1 & Hr).
  rewrite !trace_perform, Ht2, <- !app_assoc in Ht3. simpl in Ht3.
  intros Hres'.
  destruct r1 as [err|].
  - destruct Hr as [-> ->]. injection Hres' as <- <-.
    eexists evs_before, evs_sel, (_ :: _ :: evs1), [].
    split; [rewrite Ht3, !app_nil_r; reflexivity|].
    split; [exact Hbefore'|]. split; [exact Hsel_all|].
    split; [|left; eauto].
    constructor; [simpl; tauto|]. constructor; [simpl; tauto|]. by eapply Hgate.
  - assert (w3 = w') as <- by (destruct r; by injection Hres').
    eexists evs_before, evs_sel, (_ :: _ :: evs1), evs2.
    split; [rewrite Ht3; reflexivity|].
    split; [exact Hbefore'|]. split; [exact Hsel_all|].
    split.
    { constructor; [simpl; tauto|]. constructor; [simpl; tauto|]. by eapply Hgate. }
    right. exists first, rest, m, (perform E (EvNewRandom (inr suffix)) w1), w2, p, r.
    split; [reflexivity|]. split; [exact Ht0|].
    split; [rewrite <- Hports; exact Hsel|]. split; [exact Hp|].
    split; [exact Hr|].
    destruct r; injection Hres' as <-; simpl; intros info [= <-]; auto.
Qed.

(** C10. In a call of [New] that returns, every port selection is made for
    the address 127.0.0.1, every dial is made to 127.0.0.1 and some port,
    and the address of a container info returned is 127.0.0.1: the options
    have no field for it. *)
Theorem New_uses_loopback_address (E : Env) fuel options w res w' :
  New E fuel options w = (Done res, w') ->
  exists evs,
    trace w' = trace w ++ evs /\
    (forall address itv excluded selected,
       EvSelectPort address itv excluded selected ∈ evs ->
       address = IPv4 127 0 0 1) /\
    (forall network hostport r,
       EvDial network hostport r ∈ evs ->
       exists port, hostport = "127.0.0.1:" +:+ Itoa port) /\
    (forall info, res.1.1 = Some info ->
                  ContainerInfo.Address info = IPv4 127 0 0 1).
Proof.
  intros H.
  destruct (New_selection_and_dials E fuel options w res w' H)
    as (evs_before & evs_sel & evs_launch & evs_probe
        & Ht & Hbefore & Hsel & Hlaunch & Hprobe).
  exists (evs_before ++ evs_sel ++ evs_launch ++ evs_probe).
  split; [exact Ht|].
  rewrite Forall_forall in Hbefore, Hsel, Hlaunch.
  assert (forall ev, ev ∈ evs_probe -> ~ is_selection ev /\
            (is_dial ev -> exists r port,
                ev = EvDial "tcp" ("127.0.0.1:" +:+ Itoa port) r)) as Hprobe_evs.
  { destruct Hprobe as [[-> _]|(first & rest & m & w0 & w1 & p & r
                                 & _ & _ & _ & _ & Hrun & _)].
    - intros ev Hev. by apply elem_of_nil in Hev.
    - intros ev Hev. split.
      + apply reachable_run_no_selection in Hrun.
        rewrite Forall_forall in Hrun. by apply Hrun.
      + intros Hd. apply reachable_run_dials in Hrun.
        rewrite Forall_forall in Hrun.
        destruct (Hrun ev Hev Hd) as [r' ->]. exists r', p. reflexivity. }
  split; [|split].
  - intros address itv excluded selected Hin.
    rewrite !elem_of_app in Hin. destruct Hin as [Hin|[Hin|[Hin|Hin]]].
    + destruct (Hbefore _ Hin) as [_ Hn]. by destruct Hn.
    + destruct (Hsel _ Hin) as (? & ? & [= -> _ _ _]). reflexivity.
    + destruct (Hlaunch _ Hin) as [_ Hn]. by destruct Hn.
    + destruct (Hprobe_evs _ Hin) as [Hn _]. by destruct Hn.
  - intros network hostport r Hin.
    rewrite !elem_of_app in Hin. destruct Hin as [Hin|[Hin|[Hin|Hin]]].
    + destruct (Hbefore _ Hin) as [Hn _]. by destruct Hn.
    + destruct (Hsel _ Hin) as (? & ? & [=]).
    + destruct (Hlaunch _ Hin) as [Hn _]. by destruct Hn.
    + destruct (Hprobe_evs _ Hin) as [_ Hd].
      destruct (Hd I) as (r' & port & [= _ -> _]). eauto.
  - intros info Hi.
    destruct Hprobe as [[_ [err ->]]|(first & rest & m & w0 & w1 & p & r
                                      & _ & _ & _ & _ & _ & Hinfo)].
    + discriminate.
    + by destruct (Hinfo info Hi) as [_ ->].
Qed.

Lemma New_uses_loopback_address_witness :
  exists info td w',
    New Sample.ready 501 (Sample.options [Sample.tcp80]) Sample.start =
    (Done (Some info, td, None), w') /\
    ContainerInfo.Address info = IPv4 127 0 0 1.
Proof.
  destruct (New Sample.ready 501 (Sample.options [Sample.tcp80]) Sample.start)
    as [[[[[info|] td] [err|]]| |] w'] eqn:H;
    try (vm_compute in H; discriminate).
  exists info, td, w'. split; [reflexivity|].
  destruct (New_uses_loopback_address _ _ _ _ _ _ H) as (evs & _ & _ & _ & Hinfo).
  by apply Hinfo.
Defined.

(** * More properties of the package *)

(** ** Running the embedding on an example *)

Lemma run_inr {A B W : Type} (x : (A + B) * W) :
  (match x.1 with inr _ => true | inl _ => false end) = true ->
  exists b w, x = (inr b, w).
Proof. destruct x as [[a|b] w]; [discriminate|eauto]. Qed.

Lemma run_Done {A W : Type} (x : run A * W) (a : A) :
  x.1 = Done a -> exists w, x = (Done a, w).
Proof. destruct x as [r w]. simpl. intros ->. eauto. Qed.

Lemma run_returns {A W : Type} (x : run A * W) :
  (match x.1 with Done _ => true | _ => false end) = true ->
  exists a w, x = (Done a, w).
Proof. destruct x as [[a| |] w]; try discriminate. eauto. Qed.

(** ** The sample selector *)

Lemma first_free_finds n port excluded candidate :
  port <= candidate < port + Z.of_nat n ->
  candidate ∉ excluded ->
  exists found,
    Sample.first_free n port excluded = Some found /\ port <= found <= candidate.
Proof.
  revert port. induction n as [|n IH]; intros port Hc Hfree; [lia|]. simpl.
  destruct (bool_decide (port ∈ excluded)) eqn:Hport.
  - apply bool_decide_eq_true in Hport.
    assert (candidate <> port) by (intros ->; contradiction).
    destruct (IH (port + 1)) as (found & -> & ?); [lia|done|].
    exists found. split; [done|lia].
  - exists port. split; [done|lia].
Qed.

Lemma Sample_selects_within inspect dialed closed :
  selects_within
    (Sample.env (fun _ => Sample.SelectPortExcluding) inspect dialed closed).
Proof.
  intros w address itv excluded (port & Hport & Hfree). simpl.
  destruct (first_free_finds (Z.to_nat (Max itv - Min itv + 1)) (Min itv)
              excluded port) as (found & -> & ?); [lia|done|].
  simpl. lia.
Qed.

Lemma selectPorts_within_range_witness :
  exists m w' p,
    selectPorts Sample.ready (IPv4 127 0 0 1) [Sample.tcp80; Sample.tcp81]
      Sample.start = (inr m, w') /\
    m !! Sample.tcp81 = Some p /\ 40020 <= p <= 40030.
Proof.
  destruct (run_inr (selectPorts Sample.ready (IPv4 127 0 0 1)
                       [Sample.tcp80; Sample.tcp81] Sample.start))
    as (m & w' & H); [vm_compute; reflexivity|].
  destruct (selectPorts_within_range Sample.ready _ _ _ m w' Sample.tcp81
              {| Min := 40020; Max := 40030 |} (Sample_selects_within _ _ _) H)
    as (p & Hp & Hrange).
  - right. left.
  - vm_compute. reflexivity.
  - simpl. lia.
  - exists m, w', p. split; [exact H|]. split; [exact Hp|exact Hrange].
Defined.

Lemma selectPorts_distinct_on_disjoint_witness :
  exists m w',
    selectPorts Sample.ready (IPv4 127 0 0 1) [Sample.tcp80; Sample.tcp81]
      Sample.start = (inr m, w') /\
    m !! Sample.tcp80 <> m !! Sample.tcp81.
Proof.
  destruct (run_inr (selectPorts Sample.ready (IPv4 127 0 0 1)
                       [Sample.tcp80; Sample.tcp81] Sample.start))
    as (m & w' & H); [vm_compute; reflexivity|].
  exists m, w'. split; [exact H|].
  apply (selectPorts_distinct_on_disjoint Sample.ready _ _ _ m w'
           Sample.tcp80 Sample.tcp81
           {| Min := 40000; Max := 40010 |} {| Min := 40020; Max := 40030 |}
           (Sample_selects_within _ _ _) H).
  - left.
  - right. left.
  - vm_compute. reflexivity.
  - vm_compute. reflexivity.
  - simpl. lia.
  - simpl. lia.
  - left. simpl. lia.
Defined.

(** ** More on port selection *)

Lemma selectPorts_range_succeeds_iff
    (E : Env) address used toReturn (l : list PortBinding) w :
  (exists m w', selectPorts_range E address used toReturn l w = (inr m, w')) <->
  (forall b, b ∈ l ->
     exists itv, parseIntervalInteger E (ExternalInterval b) = inr itv).
Proof.
  revert w toReturn. induction l as [|b l IH]; intros w toReturn; simpl.
  - split; [|eauto]. intros _ b Hb. by apply elem_of_nil in Hb.
  - destruct (parseIntervalInteger E (ExternalInterval b)) as [err|itv] eqn:Hb.
    + split.
      * intros (m & w' & [=]).
      * intros Hall. destruct (Hall b) as [itv Hitv]; [left|]. congruence.
    + split.
      * intros Hex b' Hb'. apply elem_of_cons in Hb' as [->|Hb']; [eauto|].
        by apply (proj1 (IH _ _) Hex).
      * intros Hall. apply (proj2 (IH _ _)). intros b' Hb'. apply Hall. by right.
Qed.

(** X3. [selectPorts] returns an assignment exactly when the range of every
    binding of the input can be read. *)
Theorem selectPorts_succeeds_iff_intervals_parse
    (E : Env) address (l : list PortBinding) w :
  (exists m w', selectPorts E address l w = (inr m, w')) <->
  (forall b, b ∈ l ->
     exists itv, parseIntervalInteger E (ExternalInterval b) = inr itv).
Proof. exact (selectPorts_range_succeeds_iff E address [] ∅ l w). Qed.

(** X4. At the first binding whose range cannot be read, [selectPorts] stops:
    it has made a selection for each binding before that one, makes none
    after, and returns the parse error, wrapped with the text of the range,
    and no assignment. *)
Theorem selectPorts_first_malformed_interval
    (E : Env) address pre b post w err :
  (forall b', b' ∈ pre ->
     exists itv, parseIntervalInteger E (ExternalInterval b') = inr itv) ->
  parseIntervalInteger E (ExternalInterval b) = inl err ->
  exists w' evs,
    selectPorts E address (pre ++ b :: post) w =
      (inl (Wrap err ("Parsing " +:+ ExternalInterval b)), w') /\
    trace w' = trace w ++ evs /\
    Forall is_selection evs /\
    length evs = length pre.
Proof.
  intros Hpre Hb. unfold selectPorts. rewrite selectPorts_range_app.
  destruct (proj2 (selectPorts_range_succeeds_iff E address [] ∅ pre w) Hpre)
    as (m & w1 & Hsel).
  rewrite Hsel. simpl. rewrite Hb.
  destruct (selectPorts_range_trace _ _ _ _ _ _ _ _ Hsel) as (evs & Ht & Hall & Hlen).
  exists w1, evs. split; [done|]. split; [done|]. split; [|by eapply Hlen].
  eapply Forall_impl; [exact Hall|]. by intros ev (? & ? & ->).
Qed.

Lemma selectPorts_first_malformed_interval_witness :
  exists w' cause,
    selectPorts Sample.ready (IPv4 127 0 0 1)
      [Sample.tcp80; tcp82_malformed; Sample.tcp81] Sample.start =
    (inl (Wrap cause "Parsing forty thousand"), w') /\
    length (trace w') = 1%nat.
Proof.
  destruct (selectPorts_first_malformed_interval Sample.ready (IPv4 127 0 0 1)
              [Sample.tcp80] tcp82_malformed [Sample.tcp81] Sample.start
              (External "not an interval: forty thousand"))
    as (w' & evs & H & Ht & _ & Hlen).
  - intros b' Hb'. apply list_elem_of_singleton in Hb' as ->.
    eexists. vm_compute. reflexivity.
  - vm_compute. reflexivity.
  - exists w', (External "not an interval: forty thousand").
    split; [exact H|]. rewrite Ht. simpl. exact Hlen.
Defined.

(** X5. The assignment [selectPorts] returns has an entry for every binding of
    the input and for nothing else; when no binding occurs twice in the
    input it has as many entries as the input has bindings. *)
Theorem selectPorts_assigns_every_binding
    (E : Env) address (l : list PortBinding) w m w' :
  selectPorts E address l w = (inr m, w') ->
  (forall b, is_Some (m !! b) <-> b ∈ l) /\
  (NoDup l -> size m = length l).
Proof.
  intros H. unfold selectPorts in H.
  pose proof (selectPorts_range_dom _ _ _ _ _ _ _ _ H) as Hdom.
  rewrite dom_empty_L, (left_id_L ∅ (∪)) in Hdom. split.
  - intros b. rewrite <- elem_of_dom, Hdom. apply elem_of_list_to_set.
  - intros Hnodup. rewrite <- size_dom, Hdom. by apply size_list_to_set.
Qed.

Lemma selectPorts_assigns_every_binding_witness :
  exists m w',
    selectPorts Sample.ready (IPv4 127 0 0 1) [Sample.tcp80; Sample.tcp81]
      Sample.start = (inr m, w') /\
    is_Some (m !! Sample.tcp81) /\ size m = 2%nat.
Proof.
  destruct (run_inr (selectPorts Sample.ready (IPv4 127 0 0 1)
                       [Sample.tcp80; Sample.tcp81] Sample.start))
    as (m & w' & H); [vm_compute; reflexivity|].
  destruct (selectPorts_assigns_every_binding _ _ _ _ _ _ H) as [Hdom Hsize].
  exists m, w'. split; [exact H|]. split.
  - apply Hdom. right. left.
  - apply Hsize. apply NoDup_cons. split.
    + intros Hin. apply list_elem_of_singleton in Hin. discriminate.
    + apply NoDup_singleton.
Defined.

(** ** Image resolution *)

Lemma decodeEvents_only_decodes (E : Env) image stream w :
  exists evs,
    trace (decodeEvents E image stream w).2 = trace w ++ evs /\
    Forall (fun ev => exists r, ev = EvDecode r) evs.
Proof.
  revert w. induction stream as [|[err|] stream IH]; intros w; simpl.
  - eexists [_]. split; [reflexivity|]. repeat constructor. eauto.
  - destruct err; eexists [_]; (split; [reflexivity|]); repeat constructor; eauto.
  - destruct (IH (perform E (EvDecode None) w)) as (evs & Ht & Hall).
    exists (EvDecode None :: evs). rewrite Ht, trace_perform, <- app_assoc.
    split; [reflexivity|]. constructor; eauto.
Qed.

(** X6. The decoding loop of [pullImage] reads the stream up to its first error
    and no further: that error ends the pull, as a success when it is
    [io.EOF] and as a wrapped failure otherwise; a stream without error is
    read to its end. *)
Theorem decodeEvents_stops_at_first_error
    (E : Env) image n err post w :
  ((decodeEvents E image (replicate n None ++ Some err :: post) w).1 =
     match err with
     | io_EOF => None
     | _ => Some (Wrap err ("Pulling " +:+ image +:+ " (Error decoding json stream)"))
     end /\
   trace (decodeEvents E image (replicate n None ++ Some err :: post) w).2 =
     trace w ++ replicate n (EvDecode None) ++ [EvDecode (Some err)]) /\
  ((decodeEvents E image (replicate n None) w).1 = None /\
   trace (decodeEvents E image (replicate n None) w).2 =
     trace w ++ replicate n (EvDecode None) ++ [EvDecode (Some io_EOF)]).
Proof.
  revert w. induction n as [|n IH]; intros w; simpl.
  - split; [by destruct err|done].
  - destruct (IH (perform E (EvDecode None) w)) as ((Hr & Ht) & (Hr' & Ht')).
    rewrite Ht, Ht', trace_perform, <- !app_assoc. done.
Qed.

(** X7. [pullImage] asks the engine to pull the image exactly when the listing
    succeeds and no listed image carries the requested name as a tag. *)
Theorem pullImage_pulls_iff_absent (E : Env) options w images :
  imageList E w = inr images ->
  exists evs,
    trace (pullImage E options w).2 = trace w ++ evs /\
    (Exists is_pull evs <->
     ~ exists image,
         image ∈ images /\ Options.Image options ∈ RepoTags image).
Proof.
  intros Hlist. unfold pullImage. rewrite Hlist.
  destruct (existsb _ images) eqn:Hpresent.
  - eexists [_]. split; [reflexivity|]. split.
    + intros Hex. apply Exists_cons in Hex as [[]|Hex]. by apply Exists_nil in Hex.
    + intros Habsent. exfalso. apply Habsent.
      apply existsb_exists in Hpresent as (image & Hin & Htag).
      apply existsb_exists in Htag as (tag & Htag & Heq).
      apply bool_decide_eq_true in Heq as ->.
      exists image. split; by apply list_elem_of_In.
  - assert (~ exists image,
               image ∈ images /\ Options.Image options ∈ RepoTags image) as Habsent.
    { intros (image & Hin & Htag).
      assert (existsb
                (fun image =>
                   existsb (fun tag => bool_decide (tag = Options.Image options))
                     (RepoTags image)) images = true) as Htrue; [|congruence].
      apply existsb_exists. exists image. split; [by apply list_elem_of_In|].
      apply existsb_exists. exists (Options.Image options).
      split; [by apply list_elem_of_In|]. by apply bool_decide_eq_true. }
    destruct (imagePull E _ (Options.Image options)) as [err|events].
    + eexists [_; _]. cbn [snd]. rewrite !trace_perform, <- app_assoc.
      split; [reflexivity|]. split; [done|]. intros _.
      apply Exists_cons. right. apply Exists_cons. by left.
    + match goal with
      | |- context [decodeEvents E ?image events ?w0] =>
          destruct (decodeEvents_only_decodes E image events w0) as (evs & Ht & _)
      end.
      eexists (_ :: _ :: evs). rewrite Ht, !trace_perform, <- !app_assoc.
      split; [reflexivity|]. split; [done|]. intros _.
      apply Exists_cons. right. apply Exists_cons. by left.
Qed.

Lemma pullImage_pulls_iff_absent_witness :
  trace (pullImage Sample.ready (Sample.options []) Sample.start).2 =
    [EvImageList (inr [ {| RepoTags := ["busybox:latest"] |} ])] /\
  exists evs,
    trace (pullImage Sample.ready
             {| Options.Name := "svc"; Options.Image := "alpine:3";
                Options.Ports := []; Options.EnvironmentVariables := ∅ |}
             Sample.start).2 = evs /\
    Exists is_pull evs.
Proof.
  split; [vm_compute; reflexivity|].
  destruct (pullImage_pulls_iff_absent Sample.ready
              {| Options.Name := "svc"; Options.Image := "alpine:3";
                 Options.Ports := []; Options.EnvironmentVariables := ∅ |}
              Sample.start [ {| RepoTags := ["busybox:latest"] |} ] eq_refl)
    as (evs & Ht & Hiff).
  exists evs. split; [exact Ht|]. apply Hiff.
  intros (image & Hin & Htag).
  apply list_elem_of_singleton in Hin as ->. simpl in Htag.
  apply list_elem_of_singleton in Htag. discriminate.
Defined.

(** ** More on the readiness gate *)

Lemma stepWaitTime_pos : 0 < stepWaitTime.
Proof. reflexivity. Qed.

Lemma waitStarted_loop_inspections (E : Env) fuel containerID maxWait done :
  env_wf E ->
  forall (n : nat) w r w',
    done - now w <= Z.of_nat n * stepWaitTime ->
    waitStarted_loop E fuel containerID maxWait done w = (r, w') ->
    exists evs,
      trace w' = trace w ++ evs /\ (count_events inspects evs <= n)%nat.
Proof.
  intros Hwf. pose proof stepWaitTime_pos as Hstep.
  induction fuel as [|fuel IH]; intros n w r w' Hbudget; simpl.
  - intros [= <- <-]. exists []. rewrite app_nil_r. split; [done|]. simpl. lia.
  - destruct (decide (now w < done)) as [Hlt|Hge].
    + destruct n as [|n]; [simpl in Hbudget; lia|].
      destruct (containerInspect E w containerID) as [err|[|]].
      * intros [= <- <-]. eexists [_]. split; [reflexivity|]. simpl. lia.
      * intros [= <- <-]. eexists [_]. split; [reflexivity|]. simpl. lia.
      * intros H. apply (IH n) in H as (evs & Ht & Hcount).
        -- eexists (_ :: _ :: evs).
           rewrite Ht, trace_Sleep, trace_perform, <- !app_assoc.
           split; [reflexivity|]. simpl. lia.
        -- rewrite now_Sleep, now_perform.
           pose proof (latency_nonneg E Hwf w
                         (EvContainerInspect containerID (inr false))).
           pose proof (latency_nonneg E Hwf
                         (perform E (EvContainerInspect containerID (inr false)) w)
                         (EvSleep stepWaitTime)).
           lia.
    + intros [= <- <-]. exists []. rewrite app_nil_r. split; [done|]. simpl. lia.
Qed.

Lemma waitReachable_loop_dials (E : Env) fuel hostport maxWait done :
  env_wf E ->
  forall (n : nat) w r w',
    done - now w <= Z.of_nat n * stepWaitTime ->
    waitReachable_loop E fuel hostport maxWait done w = (r, w') ->
    exists evs,
      trace w' = trace w ++ evs /\ (count_events dials evs <= n)%nat.
Proof.
  intros Hwf. pose proof stepWaitTime_pos as Hstep.
  induction fuel as [|fuel IH]; intros n w r w' Hbudget; simpl.
  - intros [= <- <-]. exists []. rewrite app_nil_r. split; [done|]. simpl. lia.
  - destruct (decide (now w < done)) as [Hlt|Hge].
    + destruct n as [|n]; [simpl in Hbudget; lia|].
      destruct (dial E w "tcp" hostport) as [err|].
      * intros H. apply (IH n) in H as (evs & Ht & Hcount).
        -- eexists (_ :: _ :: evs).
           rewrite Ht, trace_Sleep, trace_perform, <- !app_assoc.
           split; [reflexivity|]. simpl. lia.
        -- rewrite now_Sleep, now_perform.
           pose proof (latency_nonneg E Hwf w (EvDial "tcp" hostport (Some err))).
           pose proof (latency_nonneg E Hwf
                         (perform E (EvDial "tcp" hostport (Some err)) w)
                         (EvSleep stepWaitTime)).
           lia.
      * intros [= <- <-]. eexists [_; _]. rewrite !trace_perform, <- app_assoc.
        split; [reflexivity|]. simpl. lia.
    + intros [= <- <-]. exists []. rewrite app_nil_r. split; [done|]. simpl. lia.
Qed.

(** X8. However it ends, a call of [waitStarted] with a budget of at most [n]
    steps inspects the container at most [n] times: 500 times for the five
    seconds and ten milliseconds of the package. *)
Theorem waitStarted_inspections_bounded
    (E : Env) fuel containerID maxWait (n : nat) w r w' :
  env_wf E ->
  maxWait <= Z.of_nat n * stepWaitTime ->
  waitStarted E fuel containerID maxWait w = (r, w') ->
  exists evs,
    trace w' = trace w ++ evs /\ (count_events inspects evs <= n)%nat.
Proof.
  intros Hwf Hbudget H.
  eapply waitStarted_loop_inspections; [exact Hwf| |exact H]. lia.
Qed.

(** X9. However it ends, a call of [waitReachable] with a budget of at most [n]
    steps dials at most [n] times. *)
Theorem waitReachable_dials_bounded
    (E : Env) fuel hostport maxWait (n : nat) w r w' :
  env_wf E ->
  maxWait <= Z.of_nat n * stepWaitTime ->
  waitReachable E fuel hostport maxWait w = (r, w') ->
  exists evs,
    trace w' = trace w ++ evs /\ (count_events dials evs <= n)%nat.
Proof.
  intros Hwf Hbudget H.
  eapply waitReachable_loop_dials; [exact Hwf| |exact H]. lia.
Qed.

Lemma waitStarted_inspections_bounded_witness :
  (count_events inspects
     (trace (waitStarted never_running 501 "c0ffee" maxWaitTime Sample.start).2)
   <= 500)%nat.
Proof.
  destruct (waitStarted_inspections_bounded never_running 501 "c0ffee"
              maxWaitTime 500 Sample.start _ _ (Sample_env_wf _ _ _ _)
              budget_fits_500_steps (surjective_pairing _))
    as (evs & Ht & Hcount).
  rewrite Ht. exact Hcount.
Defined.

Lemma waitReachable_dials_bounded_witness :
  (count_events dials
     (trace (waitReachable never_listening 501 "127.0.0.1:40000" maxWaitTime
               Sample.start).2)
   <= 500)%nat.
Proof.
  destruct (waitReachable_dials_bounded never_listening 501 "127.0.0.1:40000"
              maxWaitTime 500 Sample.start _ _ (Sample_env_wf _ _ _ _)
              budget_fits_500_steps (surjective_pairing _))
    as (evs & Ht & Hcount).
  rewrite Ht. exact Hcount.
Defined.

Lemma waitReachable_loop_all_dials_fail (E : Env) fuel hostport maxWait done w r w' :
  waitReachable_loop E fuel hostport maxWait done w = (Done r, w') ->
  exists evs,
    trace w' = trace w ++ evs /\
    (EvDial "tcp" hostport None ∉ evs ->
     r = Some (UnreachableErr hostport maxWait) /\ done <= now w').
Proof.
  revert w. induction fuel as [|fuel IH]; intros w; simpl; [discriminate|].
  destruct (decide (now w < done)) as [Hlt|Hge].
  - destruct (dial E w "tcp" hostport) as [err|].
    + intros H. apply IH in H as (evs & Ht & Hfail).
      eexists (_ :: _ :: evs). rewrite Ht, trace_Sleep, trace_perform, <- !app_assoc.
      split; [reflexivity|]. intros Hnot. apply Hfail. intros Hin.
      apply Hnot. by do 2 right.
    + intros [= <- <-]. eexists [_; _]. rewrite !trace_perform, <- app_assoc.
      split; [reflexivity|]. intros Hnot. exfalso. apply Hnot. left.
  - intros [= <- <-]. exists []. rewrite app_nil_r. split; [done|].
    intros _. split; [done|lia].
Qed.

(** X10. When no dial of a call of [waitReachable] succeeds, the call ends with
    the unreachable error, and not before its wait budget has elapsed. *)
Theorem waitReachable_unreachable_after_budget
    (E : Env) fuel hostport maxWait w r w' evs :
  waitReachable E fuel hostport maxWait w = (Done r, w') ->
  trace w' = trace w ++ evs ->
  EvDial "tcp" hostport None ∉ evs ->
  r = Some (UnreachableErr hostport maxWait) /\ now w + maxWait <= now w'.
Proof.
  intros H Ht Hnot.
  apply waitReachable_loop_all_dials_fail in H as (evs' & Ht' & Hfail).
  rewrite Ht in Ht'. apply app_inv_head in Ht' as <-. by apply Hfail.
Qed.

Lemma waitReachable_unreachable_after_budget_witness :
  exists r w',
    waitReachable never_listening 501 "127.0.0.1:40000" maxWaitTime Sample.start =
    (Done r, w') /\
    r = Some (UnreachableErr "127.0.0.1:40000" maxWaitTime) /\
    maxWaitTime <= now w'.
Proof.
  destruct (run_returns (waitReachable never_listening 501 "127.0.0.1:40000"
                           maxWaitTime Sample.start))
    as (r & w' & H); [vm_compute; reflexivity|].
  exists r, w'. split; [exact H|].
  apply (waitReachable_unreachable_after_budget never_listening 501
           "127.0.0.1:40000" maxWaitTime Sample.start r w' (trace w') H eq_refl).
  intros Hin.
  assert (existsb (fun ev => match ev with
                             | EvDial _ _ None => true
                             | _ => false
                             end) (trace w') = true) as Hex.
  { apply existsb_exists. eexists. split; [by apply list_elem_of_In|reflexivity]. }
  replace w' with
    (waitReachable never_listening 501 "127.0.0.1:40000" maxWaitTime
       Sample.start).2 in Hex by (rewrite H; reflexivity).
  vm_compute in Hex. discriminate.
Defined.

Lemma started_run_running containerID maxWait evs r :
  started_run containerID maxWait evs r ->
  (EvContainerInspect containerID (inr true) ∈ evs -> r = None) /\
  (r = None -> last evs = Some (EvContainerInspect containerID (inr true))).
Proof.
  induction 1 as [|err| |evs r Hrun [IH1 IH2]].
  - split; [|discriminate]. intros Hin. by apply elem_of_nil in Hin.
  - split; [|discriminate]. intros Hin.
    apply list_elem_of_singleton in Hin. discriminate.
  - done.
  - split.
    + intros Hin. apply elem_of_cons in Hin as [[=]|Hin].
      apply elem_of_cons in Hin as [[=]|Hin]. auto.
    + intros Hr. specialize (IH2 Hr). destruct evs; [discriminate|]. exact IH2.
Qed.

(** X11. A call of [waitStarted] succeeds exactly when one of its inspections
    reports a running process, and that inspection is then its last call:
    it returns without sleeping. *)
Theorem waitStarted_success_iff_running
    (E : Env) fuel containerID maxWait w r w' evs :
  waitStarted E fuel containerID maxWait w = (Done r, w') ->
  trace w' = trace w ++ evs ->
  (r = None <-> EvContainerInspect containerID (inr true) ∈ evs) /\
  (r = None -> last evs = Some (EvContainerInspect containerID (inr true))).
Proof.
  intros H Ht.
  apply waitStarted_loop_run in H as (evs' & Ht' & Hrun & _).
  rewrite Ht in Ht'. apply app_inv_head in Ht' as <-.
  destruct (started_run_running _ _ _ _ Hrun) as [Hin Hlast].
  split; [|exact Hlast]. split; [|exact Hin].
  intros Hr. destruct (started_run_result _ _ _ _ Hrun) as [[_ ?]|?]; [done|].
  congruence.
Qed.

Lemma waitStarted_success_iff_running_witness :
  exists w',
    waitStarted Sample.ready 501 "c0ffee" maxWaitTime Sample.start = (Done None, w') /\
    last (trace w') = Some (EvContainerInspect "c0ffee" (inr true)).
Proof.
  destruct (run_Done (waitStarted Sample.ready 501 "c0ffee" maxWaitTime
                        Sample.start) None)
    as (w' & H); [vm_compute; reflexivity|].
  exists w'. split; [exact H|].
  by apply (waitStarted_success_iff_running Sample.ready 501 "c0ffee" maxWaitTime
              Sample.start None w' (trace w') H eq_refl).
Defined.

(** ** More on the translation for the engine *)

Lemma toDockerPortBindings_range_dom entries key :
  is_Some (toDockerPortBindings_range entries ∅ !! key) <->
  exists entry, entry ∈ entries /\ nat_Port entry.1 = key.
Proof.
  rewrite toDockerPortBindings_range_lookup. split.
  - destruct (last_bound key entries) as [entry|] eqn:Hlast.
    + intros _. exists entry. by apply last_bound_Some.
    + rewrite lookup_empty. by intros [? [=]].
  - intros (entry & Hin & Hkey).
    destruct (last_bound key entries) as [found|] eqn:Hlast; [eauto|].
    by destruct (last_bound_None _ _ _ Hlast Hin).
Qed.

(** X12. For the assignment that [selectPorts] returns on a list of bindings,
    the ports bound on the host are exactly the ports exposed for that
    list. *)
Theorem bound_ports_are_exposed_ports
    (E : Env) address (l : list PortBinding) w0 m w1 address' w :
  env_wf E ->
  selectPorts E address l w0 = (inr m, w1) ->
  dom (toDockerPortBindings E address' m w) = toExposedPorts l.
Proof.
  intros Hwf H. unfold selectPorts in H.
  pose proof (selectPorts_range_dom _ _ _ _ _ _ _ _ H) as Hdom.
  rewrite dom_empty_L, (left_id_L ∅ (∪)) in Hdom.
  apply set_eq. intros key.
  rewrite elem_of_dom. unfold toDockerPortBindings, toExposedPorts.
  rewrite toDockerPortBindings_range_dom, toExposedPorts_fold. split.
  - intros ([b p] & Hin & Hkey). right. exists b. split; [|done].
    rewrite (rangePorts_perm E Hwf w m) in Hin.
    apply elem_of_map_to_list in Hin.
    apply (elem_of_list_to_set (C := gset PortBinding)).
    rewrite <- Hdom. apply elem_of_dom. eauto.
  - intros [Hin|(b & Hin & ->)]; [set_solver|].
    assert (is_Some (m !! b)) as [p Hp].
    { apply elem_of_dom. rewrite Hdom. by apply elem_of_list_to_set. }
    exists (b, p). split; [|done].
    rewrite (rangePorts_perm E Hwf w m). by apply elem_of_map_to_list.
Qed.

Lemma bound_ports_are_exposed_ports_witness :
  exists m w1,
    selectPorts Sample.ready (IPv4 127 0 0 1) [Sample.tcp80; Sample.udp53]
      Sample.start = (inr m, w1) /\
    dom (toDockerPortBindings Sample.ready nilIP m w1) =
    toExposedPorts [Sample.tcp80; Sample.udp53].
Proof.
  destruct (run_inr (selectPorts Sample.ready (IPv4 127 0 0 1)
                       [Sample.tcp80; Sample.udp53] Sample.start))
    as (m & w1 & H); [vm_compute; reflexivity|].
  exists m, w1. split; [exact H|].
  exact (bound_ports_are_exposed_ports Sample.ready _ _ _ _ _ nilIP w1
           (Sample_env_wf _ _ _ _) H).
Defined.

(** ** More on the entry point *)

(** A call of [New] that returns, stage by stage. *)
Lemma New_run (E : Env) fuel options w res w' :
  New E fuel options w = (Done res, w') ->
  exists evs_pre evs_sel evs_launch evs_gate,
    trace w' = trace w ++ evs_pre ++ evs_sel ++ evs_launch ++ evs_gate /\
    Forall is_preparation evs_pre /\
    Forall is_selection evs_sel /\
    ((evs_launch = [] /\ evs_gate = [] /\
      exists err, prelaunch_error options err /\ res = (None, None, Some err)) \/
     exists first rest suffix w0 dockerPorts w1,
       Options.Ports options = first :: rest /\
       EvNewRandom (inr suffix) ∈ evs_pre /\
       trace w0 = trace w ++ evs_pre /\
       selectPorts E (ParseIP dockerAddress) (Options.Ports options) w0
         = (inr dockerPorts, w1) /\
       launched E options suffix dockerPorts first w1 evs_launch evs_gate res).
Proof.
  unfold New, failure.
  destruct (newEnvClient E w) as [cause|] eqn:Hclient.
  { intros [= <- <-]. exists [EvNewEnvClient (Some cause)], [], [], [].
    rewrite trace_perform. split; [reflexivity|].
    split; [by repeat constructor|]. split; [constructor|].
    left. repeat split. eexists. split; [constructor|reflexivity]. }
  destruct (pullImage E options _) as [pulled w1] eqn:Hpull.
  apply pullImage_trace in Hpull as (listed & evs_pull & Ht1 & Hres).
  rewrite trace_perform, <- app_assoc in Ht1. simpl in Ht1.
  assert (Forall is_preparation
            (EvNewEnvClient None :: EvImageList listed :: evs_pull)) as Hpre.
  { constructor; [done|]. constructor; [done|].
    eapply Forall_impl; [exact Hres|]. by intros []. }
  destruct pulled as [cause|].
  { intros [= <- <-].
    exists (EvNewEnvClient None :: EvImageList listed :: evs_pull), [], [], [].
    rewrite Ht1, !app_nil_r. split; [reflexivity|]. split; [exact Hpre|].
    split; [constructor|].
    left. repeat split. eexists. split; [apply no_image|reflexivity]. }
  destruct (checkOptions options) eqn:Hcheck.
  { intros [= <- <-].
    exists (EvNewEnvClient None :: EvImageList listed :: evs_pull), [], [], [].
    rewrite Ht1, !app_nil_r. split; [reflexivity|]. split; [exact Hpre|].
    split; [constructor|].
    left. repeat split. eexists. split; [apply no_port|reflexivity]. }
  apply checkOptions_None in Hcheck as (first & rest & Hports).
  set (evs_pre :=
         (EvNewEnvClient None :: EvImageList listed :: evs_pull)
           ++ [EvNewRandom (newRandom E w1)]).
  assert (Forall is_preparation evs_pre) as Hpre'.
  { apply Forall_app. split; [exact Hpre|]. by repeat constructor. }
  assert (trace (perform E (EvNewRandom (newRandom E w1)) w1)
          = trace w ++ evs_pre) as Ht0.
  { rewrite trace_perform, Ht1. unfold evs_pre. by rewrite <- app_assoc. }
  destruct (newRandom E w1) as [cause|suffix] eqn:Hrandom.
  { intros [= <- <-]. exists evs_pre, [], [], [].
    rewrite Ht0, !app_nil_r. split; [reflexivity|]. split; [exact Hpre'|].
    split; [constructor|].
    left. repeat split. eexists. split; [apply no_suffix|reflexivity]. }
  assert (EvNewRandom (inr suffix) ∈ evs_pre) as Hrand_in.
  { unfold evs_pre. apply elem_of_app. right. left. }
  destruct (selectPorts E (ParseIP dockerAddress) (Options.Ports options) _)
    as [selected w2] eqn:Hsel.
  pose proof Hsel as Hsel'. unfold selectPorts in Hsel'.
  apply selectPorts_range_trace in Hsel' as (evs_sel & Ht2 & Hsel_all & _).
  rewrite Ht0 in Ht2.
  assert (Forall is_selection evs_sel) as Hsel_evs.
  { eapply Forall_impl; [exact Hsel_all|]. by intros ev (? & ? & ->). }
  destruct selected as [cause|m].
  { intros [= <- <-]. exists evs_pre, evs_sel, [], [].
    rewrite Ht2, !app_nil_r, <- app_assoc. split; [reflexivity|].
    split; [exact Hpre'|]. split; [exact Hsel_evs|].
    left. repeat split. eexists. split; [apply no_selection|reflexivity]. }
  fold (launch_containerName options suffix).
  fold (launch_config E options w2).
  fold (launch_hostConfig E m w2).
  destruct (containerCreate E w2 _ _ _) as [cause|created] eqn:Hcreate.
  { intros [= <- <-]. eexists evs_pre, evs_sel, [_], [].
    rewrite trace_perform, Ht2, <- !app_assoc. split; [reflexivity|].
    split; [exact Hpre'|]. split; [exact Hsel_evs|].
    right. exists first, rest, suffix, (perform E (EvNewRandom (inr suffix)) w1), m, w2.
    split; [done|]. split; [exact Hrand_in|].
    split; [exact Ht0|]. split; [exact Hsel|]. constructor. }
  destruct (containerStart E _ _) as [cause|] eqn:Hstart.
  { intros [= <- <-]. eexists evs_pre, evs_sel, [_; _], [].
    rewrite !trace_perform, Ht2, <- !app_assoc. split; [reflexivity|].
    split; [exact Hpre'|]. split; [exact Hsel_evs|].
    right. exists first, rest, suffix, (perform E (EvNewRandom (inr suffix)) w1), m, w2.
    split; [done|]. split; [exact Hrand_in|].
    split; [exact Ht0|]. split; [exact Hsel|]. constructor. }
  rewrite Hports. fold (launch_hostport m first).
  destruct (waitContainer E fuel _ _ _ _) as [[r| |] w3] eqn:Hwait;
    try discriminate.
  apply waitContainer_run in Hwait as (evs1 & evs2 & r1 & Ht3 & Hrun1 & Hr).
  rewrite !trace_perform, Ht2, <- !app_assoc in Ht3. simpl in Ht3.
  intros Hres'.
  assert (w3 = w') as <- by (destruct r; by injection Hres').
  eexists evs_pre, evs_sel, [_; _], (evs1 ++ evs2).
  split; [rewrite Ht3; reflexivity|].
  split; [exact Hpre'|]. split; [exact Hsel_evs|].
  right. exists first, rest, suffix, (perform E (EvNewRandom (inr suffix)) w1), m, w2.
  split; [reflexivity|]. split; [exact Hrand_in|]. split; [exact Ht0|].
  split; [rewrite <- Hports; exact Hsel|].
  assert (gate_run (ID created) (launch_hostport m first) maxWaitTime
            (evs1 ++ evs2) r) as Hgate by (exists evs1, evs2, r1; auto).
  destruct r; injection Hres' as <-; by constructor.
Qed.

Lemma gate_run_events containerID hostport maxWait evs r :
  gate_run containerID hostport maxWait evs r -> Forall is_gate evs.
Proof.
  intros (evs1 & evs2 & r1 & -> & Hrun1 & Hr). apply Forall_app. split.
  - clear Hr. induction Hrun1; by repeat constructor.
  - destruct r1 as [err|]; [destruct Hr as [_ ->]; constructor|].
    induction Hr; by repeat constructor.
Qed.

Lemma launched_events E options suffix dockerPorts first w evs_launch evs_gate res :
  launched E options suffix dockerPorts first w evs_launch evs_gate res ->
  Forall (fun ev => is_creation ev \/ is_start ev) evs_launch /\
  Forall is_gate evs_gate.
Proof.
  destruct 1; (split; [repeat constructor; simpl; tauto|]);
    first [constructor|by eapply gate_run_events].
Qed.

(** The kinds of the calls of [New], in their order. *)
Lemma New_events (E : Env) fuel options w res w' evs :
  New E fuel options w = (Done res, w') ->
  trace w' = trace w ++ evs ->
  Forall (fun ev => is_preparation ev \/ is_selection ev \/
                    is_creation ev \/ is_start ev \/ is_gate ev) evs.
Proof.
  intros H Ht.
  destruct (New_run E fuel options w res w' H)
    as (evs_pre & evs_sel & evs_launch & evs_gate & Ht' & Hpre & Hsel & Hrest).
  rewrite Ht in Ht'. apply app_inv_head in Ht' as ->.
  rewrite !Forall_app. split; [|split; [|split]].
  - eapply Forall_impl; [exact Hpre|]. tauto.
  - eapply Forall_impl; [exact Hsel|]. tauto.
  - destruct Hrest as [(-> & _)|(? & ? & ? & ? & ? & ? & _ & _ & _ & _ & Hl)];
      [constructor|].
    apply launched_events in Hl as [Hl _].
    eapply Forall_impl; [exact Hl|]. simpl. tauto.
  - destruct Hrest as [(_ & -> & _)|(? & ? & ? & ? & ? & ? & _ & _ & _ & _ & Hl)];
      [constructor|].
    apply launched_events in Hl as [_ Hg].
    eapply Forall_impl; [exact Hg|]. tauto.
Qed.

(** X15. [New] never removes a container, whatever it returns: a container it
    created stays when a later step fails. *)
Theorem New_never_removes (E : Env) fuel options w res w' evs :
  New E fuel options w = (Done res, w') ->
  trace w' = trace w ++ evs ->
  Forall (fun ev => ~ is_removal ev) evs.
Proof.
  intros H Ht. eapply Forall_impl; [exact (New_events _ _ _ _ _ _ _ H Ht)|].
  intros []; simpl; tauto.
Qed.

Lemma New_never_removes_witness :
  Forall (fun ev => ~ is_removal ev)
    (trace (New never_listening 501 (Sample.options [Sample.tcp80])
              Sample.start).2).
Proof.
  destruct (run_returns (New never_listening 501 (Sample.options [Sample.tcp80])
                           Sample.start))
    as (res & w' & H); [vm_compute; reflexivity|].
  rewrite H.
  exact (New_never_removes never_listening 501 _ Sample.start res w' (trace w')
           H eq_refl).
Defined.

(** X16. When [New] fails because the readiness gate failed, it has created and
    started a container, and has not removed it: the container is left
    behind, and the caller gets neither its identifier nor a closure to
    remove it. *)
Theorem New_gate_failure_after_launch
    (E : Env) fuel options w cause w' evs :
  New E fuel options w =
    (Done (None, None,
           Some (Wrap cause "Container not started withing time limit")), w') ->
  trace w' = trace w ++ evs ->
  (exists config hostConfig name body,
     EvContainerCreate config hostConfig name (inr body) ∈ evs /\
     EvContainerStart (ID body) None ∈ evs) /\
  Forall (fun ev => ~ is_removal ev) evs.
Proof.
  intros H Ht. split.
  - destruct (New_run E fuel options w _ w' H)
      as (evs_pre & evs_sel & evs_launch & evs_gate & Ht' & _ & _ & Hrest).
    rewrite Ht in Ht'. apply app_inv_head in Ht' as ->.
    destruct Hrest as [(_ & _ & err & Herr & [= <-])
                      |(first & rest & suffix & w0 & m & w1 & _ & _ & _ & _ & Hl)].
    + inversion Herr.
    + inversion Hl; subst;
        try match goal with
            | Hmsg : _ +:+ _ = _ |- _ => cbn in Hmsg; discriminate
            end.
      eexists _, _, _, body. rewrite !elem_of_app. split.
      * right. right. left. left.
      * right. right. left. right. left.
  - eapply Forall_impl; [exact (New_events _ _ _ _ _ _ _ H Ht)|].
    intros []; simpl; tauto.
Qed.

Lemma New_gate_failure_after_launch_witness :
  exists w' config hostConfig name body,
    New never_listening 501 (Sample.options [Sample.tcp80]) Sample.start =
    (Done (None, None,
           Some (Wrap (UnreachableErr "127.0.0.1:40000" maxWaitTime)
                   "Container not started withing time limit")), w') /\
    EvContainerCreate config hostConfig name (inr body) ∈ trace w' /\
    EvContainerStart (ID body) None ∈ trace w'.
Proof.
  destruct (run_Done (New never_listening 501 (Sample.options [Sample.tcp80])
                        Sample.start)
              (None, None,
               Some (Wrap (UnreachableErr "127.0.0.1:40000" maxWaitTime)
                       "Container not started withing time limit")))
    as (w' & H); [vm_compute; reflexivity|].
  destruct (New_gate_failure_after_launch never_listening 501 _ Sample.start
              _ w' (trace w') H eq_refl)
    as [(config & hostConfig & name & body & Hc & Hs) _].
  exists w', config, hostConfig, name, body. auto.
Defined.

(** The call that creates the container, wherever it occurs in a call of
    [New]: its arguments, and how the results depend on it. *)
Lemma New_creation_event
    (E : Env) fuel options w res w' evs config hostConfig name r :
  New E fuel options w = (Done res, w') ->
  trace w' = trace w ++ evs ->
  EvContainerCreate config hostConfig name r ∈ evs ->
  exists first rest suffix w0 dockerPorts w1,
    Options.Ports options = first :: rest /\
    EvNewRandom (inr suffix) ∈ evs /\
    selectPorts E (ParseIP dockerAddress) (Options.Ports options) w0
      = (inr dockerPorts, w1) /\
    config = launch_config E options w1 /\
    hostConfig = launch_hostConfig E dockerPorts w1 /\
    name = launch_containerName options suffix /\
    forall info, res.1.1 = Some info ->
      ContainerInfo.Ports info = dockerPorts /\
      exists body, r = inr body /\ ContainerInfo.Identifier info = ID body.
Proof.
  intros H Ht Hin.
  destruct (New_run E fuel options w res w' H)
    as (evs_pre & evs_sel & evs_launch & evs_gate & Ht' & Hpre & Hsel & Hrest).
  rewrite Ht in Ht'. apply app_inv_head in Ht' as ->.
  rewrite Forall_forall in Hpre, Hsel.
  rewrite !elem_of_app in Hin. destruct Hin as [Hin|[Hin|Hin]].
  { by destruct (Hpre _ Hin). }
  { by destruct (Hsel _ Hin). }
  destruct Hrest as [(-> & -> & _)
                    |(first & rest & suffix & w0 & m & w1
                      & Hports & Hrand & _ & Hselect & Hl)].
  { destruct Hin as [Hin|Hin]; by apply elem_of_nil in Hin. }
  exists first, rest, suffix, w0, m, w1.
  split; [done|]. split; [apply elem_of_app; by left|]. split; [done|].
  pose proof (launched_events _ _ _ _ _ _ _ _ _ Hl) as [_ Hgate].
  rewrite Forall_forall in Hgate.
  destruct Hin as [Hin|Hin]; [|by destruct (Hgate _ Hin)].
  destruct Hl; repeat (apply elem_of_cons in Hin as [Hin|Hin]);
    try (by apply elem_of_nil in Hin); try discriminate;
    injection Hin as -> -> -> ->; repeat (split; [reflexivity|]);
    intros info [=]; subst; simpl; eauto.
Qed.

(** X17. The container is created for the image of the options, under the name
    of the options followed by a dash and the suffix drawn for this call,
    with the ports of the options exposed and the bindings computed from
    the assignment that [selectPorts] returned; when [New] succeeds, that
    assignment and the identifier the engine gave to this container are the
    ones it returns. *)
Theorem New_create_arguments
    (E : Env) fuel options w res w' evs config hostConfig name r :
  New E fuel options w = (Done res, w') ->
  trace w' = trace w ++ evs ->
  EvContainerCreate config hostConfig name r ∈ evs ->
  cfg_Image config = Options.Image options /\
  cfg_ExposedPorts config = toExposedPorts (Options.Ports options) /\
  (exists suffix,
     EvNewRandom (inr suffix) ∈ evs /\
     name = Options.Name options +:+ "-" +:+ suffix) /\
  (exists w0 dockerPorts w1,
     selectPorts E (ParseIP dockerAddress) (Options.Ports options) w0
       = (inr dockerPorts, w1) /\
     PortBindings hostConfig =
       toDockerPortBindings E (ParseIP dockerAddress) dockerPorts w1 /\
     forall info, res.1.1 = Some info ->
       ContainerInfo.Ports info = dockerPorts /\
       exists body, r = inr body /\ ContainerInfo.Identifier info = ID body).
Proof.
  intros H Ht Hin.
  destruct (New_creation_event _ _ _ _ _ _ _ _ _ _ _ H Ht Hin)
    as (first & rest & suffix & w0 & m & w1
        & _ & Hrand & Hsel & -> & -> & -> & Hinfo).
  split; [reflexivity|]. split; [reflexivity|]. split; [eauto|].
  exists w0, m, w1. auto.
Qed.

Lemma New_create_arguments_witness :
  exists w' config hostConfig name r,
    EvContainerCreate config hostConfig name r
      ∈ trace (New Sample.ready 501 (Sample.options [Sample.tcp80]) Sample.start).2 /\
    New Sample.ready 501 (Sample.options [Sample.tcp80]) Sample.start =
      ((New Sample.ready 501 (Sample.options [Sample.tcp80]) Sample.start).1, w') /\
    cfg_Image config = "busybox:latest" /\
    cfg_ExposedPorts config = toExposedPorts [Sample.tcp80].
Proof.
  destruct (run_returns (New Sample.ready 501 (Sample.options [Sample.tcp80])
                           Sample.start))
    as (res & w' & H); [vm_compute; reflexivity|].
  destruct (New_run _ _ _ _ _ _ H)
    as (evs_pre & evs_sel & evs_launch & evs_gate & Ht & _ & _ & Hrest).
  destruct Hrest as [(_ & _ & err & _ & ->)|(? & ? & ? & ? & ? & ? & _ & _ & _ & _ & Hl)].
  { exfalso.
    assert (match (New Sample.ready 501 (Sample.options [Sample.tcp80])
                     Sample.start).1 with
            | Done (Some _, _, _) => true
            | _ => false
            end = true) as Hok by (vm_compute; reflexivity).
    rewrite H in Hok. discriminate. }
  assert (exists config hostConfig name r,
            EvContainerCreate config hostConfig name r ∈ evs_launch)
    as (config & hostConfig & name & r & Hin)
    by (destruct Hl; do 4 eexists; left).
  assert (EvContainerCreate config hostConfig name r
            ∈ evs_pre ++ evs_sel ++ evs_launch ++ evs_gate) as Hin'.
  { rewrite !elem_of_app. auto. }
  destruct (New_create_arguments _ _ _ _ _ _ _ _ _ _ _ H Ht Hin')
    as (Himage & Hexposed & _).
  exists w', config, hostConfig, name, r. rewrite H. simpl.
  split; [rewrite Ht; exact Hin'|]. split; [reflexivity|].
  split; [exact Himage|exact Hexposed].
Defined.

(** X18. The environment passed to the engine holds one entry [KEY=VALUE] for
    each variable of the options, in some order. *)
Theorem New_passes_environment
    (E : Env) fuel options w res w' evs config hostConfig name r :
  env_wf E ->
  New E fuel options w = (Done res, w') ->
  trace w' = trace w ++ evs ->
  EvContainerCreate config hostConfig name r ∈ evs ->
  cfg_Env config ≡ₚ
    (fun kv => kv.1 +:+ "=" +:+ kv.2)
      <$> map_to_list (Options.EnvironmentVariables options).
Proof.
  intros Hwf H Ht Hin.
  destruct (New_creation_event _ _ _ _ _ _ _ _ _ _ _ H Ht Hin)
    as (first & rest & suffix & w0 & m & w1 & _ & _ & _ & -> & _).
  simpl. apply fmap_Permutation. apply (rangeEnvironmentVariables_perm E Hwf).
Qed.

(** X19. A container is created only for options that passed the check and whose
    ranges were all read: with an empty list of ports, or with a range that
    cannot be read, [New] creates nothing. *)
Theorem New_creates_only_after_selection
    (E : Env) fuel options w res w' evs config hostConfig name r :
  New E fuel options w = (Done res, w') ->
  trace w' = trace w ++ evs ->
  EvContainerCreate config hostConfig name r ∈ evs ->
  Options.Ports options <> [] /\
  forall b, b ∈ Options.Ports options ->
    exists itv, parseIntervalInteger E (ExternalInterval b) = inr itv.
Proof.
  intros H Ht Hin.
  destruct (New_creation_event _ _ _ _ _ _ _ _ _ _ _ H Ht Hin)
    as (first & rest & suffix & w0 & m & w1 & Hports & _ & Hsel & _).
  split; [by rewrite Hports|].
  apply (selectPorts_range_succeeds_iff E (ParseIP dockerAddress) [] ∅ _ w0).
  eauto.
Qed.

(** X20. The closure that [New] returns asks the engine, once, to remove the
    container whose identifier [New] returned, with force; it returns the
    error of the engine wrapped with the name of the container, or nil. *)
Theorem teardown_removes_returned_container
    (E : Env) fuel options w info td err w' w2 :
  New E fuel options w = (Done (Some info, Some td, err), w') ->
  let removed := containerRemove E w2 (ContainerInfo.Identifier info) true in
  trace (teardown E td w2).2 =
    trace w2 ++ [EvContainerRemove (ContainerInfo.Identifier info) true removed] /\
  (teardown E td w2).1 =
    match removed with
    | Some cause =>
        Some (Wrap cause ("MongoDB: Could not remove " +:+ td_containerName td))
    | None => None
    end /\
  exists suffix, td_containerName td = Options.Name options +:+ "-" +:+ suffix.
Proof.
  intros H.
  destruct (New_run _ _ _ _ _ _ H)
    as (evs_pre & evs_sel & evs_launch & evs_gate & _ & _ & _ & Hrest).
  destruct Hrest as [(_ & _ & ? & _ & [=])
                    |(first & rest & suffix & w0 & m & w1 & _ & _ & _ & _ & Hl)].
  inversion Hl; subst. simpl. unfold teardown. simpl.
  destruct (containerRemove E w2 (ID body) true); simpl; eauto.
Qed.

Lemma teardown_removes_returned_container_witness :
  exists info td w',
    New Sample.ready 501 (Sample.options [Sample.tcp80]) Sample.start =
      (Done (Some info, Some td, None), w') /\
    trace (teardown Sample.ready td w').2 =
      trace w' ++ [EvContainerRemove (ContainerInfo.Identifier info) true None].
Proof.
  destruct (run_returns (New Sample.ready 501 (Sample.options [Sample.tcp80])
                           Sample.start))
    as ([[info td] err] & w' & H); [vm_compute; reflexivity|].
  assert (match (New Sample.ready 501 (Sample.options [Sample.tcp80])
                   Sample.start).1 with
          | Done (Some _, Some _, None) => true
          | _ => false
          end = true) as Hok by (vm_compute; reflexivity).
  rewrite H in Hok. simpl in Hok.
  destruct info as [info|]; [|discriminate].
  destruct td as [td|]; [|discriminate].
  destruct err; [discriminate|].
  exists info, td, w'. split; [exact H|].
  exact (proj1 (teardown_removes_returned_container _ _ _ _ _ _ _ _ w' H)).
Defined.

Lemma New_success_has_creation (E : Env) fuel options w info td err w' evs :
  New E fuel options w = (Done (Some info, td, err), w') ->
  trace w' = trace w ++ evs ->
  exists config hostConfig name body,
    EvContainerCreate config hostConfig name (inr body) ∈ evs.
Proof.
  intros H Ht.
  destruct (New_run _ _ _ _ _ _ H)
    as (evs_pre & evs_sel & evs_launch & evs_gate & Ht' & _ & _ & Hrest).
  rewrite Ht in Ht'. apply app_inv_head in Ht' as ->.
  destruct Hrest as [(_ & _ & ? & _ & [=])
                    |(first & rest & suffix & w0 & m & w1 & _ & _ & _ & _ & Hl)].
  inversion Hl; subst. do 4 eexists. rewrite !elem_of_app. right. right. left. left.
Qed.

Lemma New_passes_environment_witness :
  exists config w',
    New Sample.ready 501 options_with_environment Sample.start =
      ((New Sample.ready 501 options_with_environment Sample.start).1, w') /\
    (exists hostConfig name r,
       EvContainerCreate config hostConfig name r ∈ trace w') /\
    length (cfg_Env config) = 2%nat.
Proof.
  destruct (run_returns (New Sample.ready 501 options_with_environment Sample.start))
    as ([[info td] err] & w' & H); [vm_compute; reflexivity|].
  assert (match (New Sample.ready 501 options_with_environment Sample.start).1 with
          | Done (Some _, _, _) => true
          | _ => false
          end = true) as Hok by (vm_compute; reflexivity).
  rewrite H in Hok. simpl in Hok. destruct info as [info|]; [|discriminate].
  destruct (New_success_has_creation _ _ _ _ _ _ _ _ (trace w') H eq_refl)
    as (config & hostConfig & name & body & Hin).
  pose proof (New_passes_environment Sample.ready 501 _ Sample.start _ w'
                (trace w') config hostConfig name (inr body)
                (Sample_env_wf _ _ _ _) H eq_refl Hin) as Hperm.
  exists config, w'. rewrite H. split; [reflexivity|]. split; [eauto|].
  rewrite Hperm, length_fmap, length_map_to_list. reflexivity.
Defined.

Lemma New_creates_only_after_selection_witness :
  exists w',
    New Sample.ready 501 (Sample.options [Sample.tcp80]) Sample.start =
      ((New Sample.ready 501 (Sample.options [Sample.tcp80]) Sample.start).1, w') /\
    exists itv,
      Sample.ParseIntervalInteger (ExternalInterval Sample.tcp80) = inr itv.
Proof.
  destruct (run_returns (New Sample.ready 501 (Sample.options [Sample.tcp80])
                           Sample.start))
    as ([[info td] err] & w' & H); [vm_compute; reflexivity|].
  assert (match (New Sample.ready 501 (Sample.options [Sample.tcp80])
                   Sample.start).1 with
          | Done (Some _, _, _) => true
          | _ => false
          end = true) as Hok by (vm_compute; reflexivity).
  rewrite H in Hok. simpl in Hok. destruct info as [info|]; [|discriminate].
  destruct (New_success_has_creation _ _ _ _ _ _ _ _ (trace w') H eq_refl)
    as (config & hostConfig & name & body & Hin).
  destruct (New_creates_only_after_selection Sample.ready 501 _ Sample.start _ w'
              (trace w') config hostConfig name (inr body) H eq_refl Hin)
    as [_ Hparse].
  exists w'. rewrite H. split; [reflexivity|]. apply Hparse. left.
Defined.

(** X21. When [New] succeeds, the assignment it returns has an entry for every
    binding of the options and for nothing else. *)
Theorem New_success_assigns_all_ports
    (E : Env) fuel options w info td err w' :
  New E fuel options w = (Done (Some info, td, err), w') ->
  forall b, is_Some (ContainerInfo.Ports info !! b) <-> b ∈ Options.Ports options.
Proof.
  intros H b.
  destruct (New_run _ _ _ _ _ _ H)
    as (evs_pre & evs_sel & evs_launch & evs_gate & _ & _ & _ & Hrest).
  destruct Hrest as [(_ & _ & ? & _ & [=])
                    |(first & rest & suffix & w0 & m & w1 & _ & _ & _ & Hsel & Hl)].
  inversion Hl; subst. simpl. unfold selectPorts in Hsel.
  rewrite <- elem_of_dom, (selectPorts_range_dom _ _ _ _ _ _ _ _ Hsel).
  rewrite dom_empty_L, (left_id_L ∅ (∪)). apply elem_of_list_to_set.
Qed.

Lemma New_success_assigns_all_ports_witness :
  exists info td w',
    New Sample.ready 501 (Sample.options [Sample.tcp80; Sample.tcp81])
      Sample.start = (Done (Some info, td, None), w') /\
    is_Some (ContainerInfo.Ports info !! Sample.tcp81).
Proof.
  destruct (run_returns (New Sample.ready 501
                           (Sample.options [Sample.tcp80; Sample.tcp81])
                           Sample.start))
    as ([[info td] err] & w' & H); [vm_compute; reflexivity|].
  assert (match (New Sample.ready 501 (Sample.options [Sample.tcp80; Sample.tcp81])
                   Sample.start).1 with
          | Done (Some _, _, None) => true
          | _ => false
          end = true) as Hok by (vm_compute; reflexivity).
  rewrite H in Hok. simpl in Hok. destruct info as [info|]; [|discriminate].
  destruct err; [discriminate|].
  exists info, td, w'. split; [exact H|].
  apply (New_success_assigns_all_ports _ _ _ _ _ _ _ _ H). right. left.
Defined.

Lemma reachable_run_success hostport maxWait evs :
  reachable_run hostport maxWait evs None ->
  exists before, evs = before ++ [EvDial "tcp" hostport None; EvClose None].
Proof.
  intros Hrun. remember None as r eqn:Hr.
  induction Hrun as [| |err evs r Hrun IH]; subst.
  - discriminate.
  - by exists [].
  - destruct (IH eq_refl) as [before ->]. by eexists (_ :: _ :: before).
Qed.

(** X22. [New] succeeds only after an inspection reported the process of the
    container running and a connection to the port assigned to the first
    binding, on 127.0.0.1, was opened and closed without error: these are
    its last two calls. *)
Theorem New_success_means_reachable
    (E : Env) fuel options w info td err w' :
  New E fuel options w = (Done (Some info, td, err), w') ->
  err = None /\
  exists first rest port before,
    Options.Ports options = first :: rest /\
    ContainerInfo.Ports info !! first = Some port /\
    trace w' =
      trace w ++ before
        ++ [EvDial "tcp" ("127.0.0.1:" +:+ Itoa port) None; EvClose None] /\
    EvContainerInspect (ContainerInfo.Identifier info) (inr true) ∈ before.
Proof.
  intros H.
  destruct (New_run _ _ _ _ _ _ H)
    as (evs_pre & evs_sel & evs_launch & evs_gate & Ht & _ & _ & Hrest).
  destruct Hrest as [(_ & _ & ? & _ & [=])
                    |(first & rest & suffix & w0 & m & w1
                      & Hports & _ & _ & Hsel & Hl)].
  inversion Hl as [| | |body evs_gate' Hgate]; subst. split; [reflexivity|].
  destruct Hgate as (evs1 & evs2 & r1 & -> & Hrun1 & Hr).
  destruct r1 as [e|]; [by destruct Hr|].
  apply reachable_run_success in Hr as [before ->].
  assert (is_Some (m !! first)) as [port Hport].
  { unfold selectPorts in Hsel. apply elem_of_dom.
    rewrite (selectPorts_range_dom _ _ _ _ _ _ _ _ Hsel), Hports. set_solver. }
  destruct (started_run_running _ _ _ _ Hrun1) as [_ Hlast].
  specialize (Hlast eq_refl). apply last_Some in Hlast as [evs0 ->].
  match type of Ht with
  | _ = _ ++ _ ++ _ ++ ?launch ++ _ =>
      exists first, rest, port,
        (evs_pre ++ evs_sel ++ launch
           ++ evs0 ++ [EvContainerInspect (ID body) (inr true)] ++ before)
  end.
  split; [done|]. split; [exact Hport|]. split.
  - rewrite Ht. unfold launch_hostport. rewrite Hport.
    change (dockerAddress +:+ ":" +:+ Itoa (default 0 (Some port)))
      with ("127.0.0.1:" +:+ Itoa port).
    rewrite <- !app_assoc. reflexivity.
  - simpl. repeat (rewrite elem_of_app || rewrite elem_of_cons). naive_solver.
Qed.

Lemma New_success_means_reachable_witness :
  exists info td w' before,
    New Sample.ready 501 (Sample.options [Sample.tcp80]) Sample.start =
      (Done (Some info, td, None), w') /\
    trace w' = before ++ [EvDial "tcp" "127.0.0.1:40000" None; EvClose None].
Proof.
  destruct (run_returns (New Sample.ready 501 (Sample.options [Sample.tcp80])
                           Sample.start))
    as ([[info td] err] & w' & H); [vm_compute; reflexivity|].
  assert (match (New Sample.ready 501 (Sample.options [Sample.tcp80])
                   Sample.start).1 with
          | Done (Some info, _, _) =>
              bool_decide (ContainerInfo.Ports info !! Sample.tcp80 = Some 40000)
          | _ => false
          end = true) as Hok by (vm_compute; reflexivity).
  rewrite H in Hok. simpl in Hok. destruct info as [info|]; [|discriminate].
  apply bool_decide_eq_true in Hok.
  destruct (New_success_means_reachable _ _ _ _ _ _ _ _ H)
    as (-> & first & rest & port & before & [= <- _] & Hport & Ht & _).
  rewrite Hok in Hport. injection Hport as <-.
  exists info, td, w', before. split; [exact H|exact Ht].
Defined.

(** ** The keys of the engine's port maps *)

Lemma pretty_N_go_slash_free (x : N) s :
  slash_free s = true -> slash_free (pretty_N_go x s) = true.
Proof.
  revert s. induction (N.lt_wf_0 x) as [x _ IH]; intros s Hs.
  assert (x = 0 \/ 0 < x)%N as [->|Hpos] by lia.
  - by rewrite pretty_N_go_0.
  - rewrite pretty_N_go_step by done. apply IH.
    + by apply N.div_lt.
    + simpl. rewrite Hs, andb_true_r. apply bool_decide_eq_true.
      unfold pretty_N_char. by repeat case_match.
Qed.

Lemma pretty_N_slash_free (x : N) : slash_free (pretty x) = true.
Proof.
  unfold pretty, pretty_N. case_decide; [done|].
  by apply pretty_N_go_slash_free.
Qed.

Lemma Itoa_slash_free (n : Z) : slash_free (Itoa n) = true.
Proof.
  unfold Itoa, pretty, pretty_Z. destruct n as [|p|p]; [done| |].
  - apply pretty_N_slash_free.
  - simpl. apply pretty_N_slash_free.
Qed.

Lemma append_slash_inj a a' p p' :
  slash_free a = true -> slash_free a' = true ->
  a +:+ "/" +:+ p = a' +:+ "/" +:+ p' -> a = a' /\ p = p'.
Proof.
  revert a'. induction a as [|c a IH]; intros [|c' a'] Ha Ha' Heq;
    cbn [String.append slash_free] in *.
  - injection Heq as Heq. by split.
  - injection Heq as Hc _. subst c'.
    by rewrite bool_decide_eq_false_2 in Ha' by auto.
  - injection Heq as Hc _. subst c.
    by rewrite bool_decide_eq_false_2 in Ha by auto.
  - injection Heq as Hc Heq. subst c'.
    apply andb_true_iff in Ha as [_ Ha]. apply andb_true_iff in Ha' as [_ Ha'].
    destruct (IH a' Ha Ha' Heq) as [-> ->]. done.
Qed.

Lemma nat_Port_eq_iff (b b' : PortBinding) :
  nat_Port b = nat_Port b' <->
  Internal b = Internal b' /\ Protocol b = Protocol b'.
Proof.
  unfold nat_Port. split.
  - intros Heq.
    apply append_slash_inj in Heq as [Hint ->]; try apply Itoa_slash_free.
    split; [|done]. by apply (inj pretty).
  - by intros [-> ->].
Qed.

(** X13. Two bindings have the same key in the maps given to the engine exactly
    when they have the same internal port and the same protocol: the
    external range plays no part. *)
Theorem nat_Port_same_key (b b' : PortBinding) :
  nat_Port b = nat_Port b' <->
  Internal b = Internal b' /\ Protocol b = Protocol b'.
Proof. exact (nat_Port_eq_iff b b'). Qed.

(** X14. A binding of the assignment that shares its internal port and protocol
    with no other binding of the assignment is bound to its own external
    port, whatever the order in which the assignment is visited. *)
Theorem toDockerPortBindings_own_port
    (E : Env) address (ports : gmap PortBinding Z) w binding port :
  env_wf E ->
  ports !! binding = Some port ->
  (forall other,
     is_Some (ports !! other) ->
     Internal other = Internal binding -> Protocol other = Protocol binding ->
     other = binding) ->
  toDockerPortBindings E address ports w !! nat_Port binding =
    Some [ {| HostIP := ""; HostPort := Itoa port |} ].
Proof.
  intros Hwf Hp Huniq.
  assert (forall b p, (b, p) ∈ rangePorts E w ports <-> ports !! b = Some p) as Hrange.
  { intros b p. rewrite (rangePorts_perm E Hwf w ports). apply elem_of_map_to_list. }
  unfold toDockerPortBindings. rewrite toDockerPortBindings_range_lookup.
  destruct (last_bound (nat_Port binding) (rangePorts E w ports))
    as [[binding' port']|] eqn:Hlast.
  - apply last_bound_Some in Hlast as [Hin Hkey]. simpl in Hkey.
    apply Hrange in Hin. apply nat_Port_eq_iff in Hkey as [Hint Hproto].
    rewrite (Huniq binding') in Hin by eauto. simpl. congruence.
  - exfalso. apply (last_bound_None _ _ (binding, port) Hlast); [|done].
    by apply Hrange.
Qed.

Lemma toDockerPortBindings_own_port_witness :
  toDockerPortBindings Sample.ready nilIP
    {[ Sample.tcp80 := 40000; Sample.udp53 := 40001 ]} Sample.start
    !! nat_Port Sample.udp53 =
  Some [ {| HostIP := ""; HostPort := Itoa 40001 |} ].
Proof.
  apply (toDockerPortBindings_own_port Sample.ready nilIP _ Sample.start
           Sample.udp53 40001 (Sample_env_wf _ _ _ _)).
  - vm_compute. reflexivity.
  - intros other [p Hother] Hint Hproto.
    apply lookup_insert_Some in Hother as [[<- _]|[_ Hother]].
    + discriminate.
    + apply lookup_singleton_Some in Hother as [<- _]. reflexivity.
Defined.

(** ** The probe of the second phase *)







